(** * MacroBuilder: the debug-macro expansion engine of
      [src/lib/utils/macro-builder.js]

    A shallow embedding of the [MacroBuilder] class.  Syntax-tree nodes are an
    inductive type, the builder object and the module body it mutates are an
    explicit state, and methods that can throw live in a small
    state-and-exception monad.  The host framework (node constructors, scope
    lookup, tree mutation) is modelled by the few operations the class calls. *)

From Stdlib Require Import ZArith Ascii String List Bool Lia.
From stdpp Require Import base option list gmap strings pretty.

Local Open Scope string_scope.
Set Warnings "-register-all".

(** ** Syntax-tree nodes *)

Module Ast.

(** Expression nodes, as built by the node constructors the class uses
    ([t.identifier], [t.callExpression], ...).  Numeric literals carry
    integer values. *)
Inductive expr : Type :=
| Identifier (name : string)
| StringLiteral (value : string)
| NumericLiteral (value : Z)
| BooleanLiteral (value : bool)
| NullLiteral
| CallExpression (callee : expr) (arguments : list expr)
| MemberExpression (object property : expr)
| LogicalExpression (operator : string) (left right : expr)
| ParenthesizedExpression (expression : expr)
| ObjectExpression (properties : list (expr * expr)).

(** [import { imported as local } from ...] *)
Record ImportSpecifier : Type := {
  spec_imported : string;
  spec_local : string
}.

(** Statements of a module body.  A variable declaration holds the single
    declarator the class builds. *)
Inductive stmt : Type :=
| ExpressionStatement (expression : expr)
| VariableDeclaration (kind : string) (id : expr) (init : expr)
| ImportDeclaration (specifiers : list ImportSpecifier) (source : string).

(** [t.isIdentifier(node)] *)
Definition isIdentifier (e : expr) : bool :=
  match e with Identifier _ => true | _ => false end.

(** [t.isLiteral(node)] *)
Definition isLiteral (e : expr) : bool :=
  match e with
  | StringLiteral _ | NumericLiteral _ | BooleanLiteral _ | NullLiteral => true
  | _ => false
  end.

End Ast.
Import Ast.

(** ** JavaScript values read off nodes *)

Module Js.

Inductive value : Type :=
| VUndefined
| VNull
| VBool (b : bool)
| VNumber (z : Z)
| VString (s : string).

(** [node.value]: defined on string, numeric and boolean literals. *)
Definition node_value (e : expr) : value :=
  match e with
  | StringLiteral s => VString s
  | NumericLiteral z => VNumber z
  | BooleanLiteral b => VBool b
  | _ => VUndefined
  end.

(** [node.name]: defined on identifiers. *)
Definition node_name (e : expr) : option string :=
  match e with Identifier n => Some n | _ => None end.

Definition is_empty (s : string) : bool :=
  match s with EmptyString => true | String _ _ => false end.

(** ToBoolean *)
Definition truthy (v : value) : bool :=
  match v with
  | VUndefined | VNull => false
  | VBool b => b
  | VNumber z => negb (Z.eqb z 0)
  | VString s => negb (is_empty s)
  end.

(** The Number value of a non-negative integer: the nearest double, ties to
    even. *)
Definition to_double (z : Z) : Z :=
  if (z <? 2 ^ 53)%Z then z
  else
    let shift := (Z.log2 z - 52)%Z in
    let q := Z.shiftr z shift in
    let r := (z - Z.shiftl q shift)%Z in
    let half := Z.shiftl 1 (shift - 1) in
    let q' := if (half <? r)%Z || ((r =? half)%Z && Z.odd q) then (q + 1)%Z else q in
    Z.shiftl q' shift.

Definition decimal_length (v : Z) : Z := Z.of_nat (String.length (pretty v)).

(** The [k]-digit integer [s] and the exponent [n] with [s * 10^(n-k)]
    nearest to the double [v] among those that read back as [v], if any. *)
Definition shortest_at (v n k : Z) : option (Z * Z) :=
  let p := (10 ^ (n - k))%Z in
  let lo := (v / p)%Z in
  let hi := (lo + 1)%Z in
  let below := (v - lo * p)%Z in
  let above := (hi * p - v)%Z in
  let carried := if (hi =? 10 ^ k)%Z then (10 ^ (k - 1), n + 1)%Z else (hi, n) in
  match (to_double (lo * p) =? v)%Z, (to_double (hi * p) =? v)%Z with
  | true, true =>
      if (below <? above)%Z then Some (lo, n)
      else if (above <? below)%Z then Some carried
      else if Z.even lo then Some (lo, n) else Some carried
  | true, false => Some (lo, n)
  | false, true => Some carried
  | false, false => None
  end.

(** The least number of digits that reads back as [v], with its digits and
    exponent. *)
Fixpoint shortest (v n : Z) (ks : list Z) : option (Z * Z * Z) :=
  match ks with
  | [] => None
  | k :: rest =>
      if (n <? k)%Z then None
      else match shortest_at v n k with
           | Some (s, n') => Some (s, n', k)
           | None => shortest v n rest
           end
  end.

Fixpoint zeros (n : nat) : string :=
  match n with O => EmptyString | S n' => String "0" (zeros n') end.

(** Number::toString of a non-negative integer: its decimal digits up to
    2^53, and above that the shortest digits that read back as the same
    double, padded with zeros below 10^21 and in exponent form from there. *)
Definition number_to_string_nonneg (z : Z) : string :=
  let v := to_double z in
  if (v <=? 2 ^ 53)%Z then pretty v
  else if (2 ^ 1024 <=? v)%Z then "Infinity"
  else
    match shortest v (decimal_length v)
            [1; 2; 3; 4; 5; 6; 7; 8; 9; 10; 11; 12; 13; 14; 15; 16; 17]%Z with
    | Some (s, n, k) =>
        if (n <=? 21)%Z then pretty s +:+ zeros (Z.to_nat (n - k))
        else
          match pretty s with
          | String d rest =>
              String d (if is_empty rest then EmptyString else "." +:+ rest)
              +:+ "e+" +:+ pretty (n - 1)%Z
          | EmptyString => EmptyString
          end
    | None => pretty v
    end.

Definition number_to_string (z : Z) : string :=
  if (z <? 0)%Z then "-" +:+ number_to_string_nonneg (- z) else number_to_string_nonneg z.

(** ToString, as a template literal applies it. *)
Definition to_string (v : value) : string :=
  match v with
  | VUndefined => "undefined"
  | VNull => "null"
  | VBool true => "true"
  | VBool false => "false"
  | VNumber z => number_to_string z
  | VString s => s
  end.

(** [String.prototype.includes] *)
Fixpoint includes (needle hay : string) : bool :=
  String.prefix needle hay ||
  match hay with
  | EmptyString => false
  | String _ rest => includes needle rest
  end.

Inductive exn : Type :=
| Error (message : string)
| ReferenceError (message : string)
| TypeError (message : string).

(** The double-quote character, for messages that quote a field name. *)
Definition dquote : string := String (ascii_of_nat 34) EmptyString.

End Js.
Import Js.

(** ** The module body and the builder object *)

(** A path is the identity of a statement of the module body. *)
Definition path := nat.

(** The body of the program: its statements in order, each under its path. *)
Definition Program := list (path * stmt).

Module Tree.

(** [path.node] *)
Fixpoint node (p : path) (body : Program) : option stmt :=
  match body with
  | [] => None
  | (k, s) :: rest => if Nat.eqb k p then Some s else node p rest
  end.

(** The statement under [p] becomes [s]. *)
Definition set_node (p : path) (s : stmt) (body : Program) : Program :=
  map (fun slot => if Nat.eqb (fst slot) p then (fst slot, s) else slot) body.

(** The statement under [p] leaves the body. *)
Definition drop_node (p : path) (body : Program) : Program :=
  List.filter (fun slot => negb (Nat.eqb (fst slot) p)) body.

(** A path not yet in use. *)
Definition fresh (body : Program) : path :=
  S (list_max (map fst body)).

(** Consecutive new paths for a list of new statements. *)
Fixpoint number (k : path) (nodes : list stmt) : Program :=
  match nodes with
  | [] => []
  | s :: rest => (k, s) :: number (S k) rest
  end.

(** The statement under [p] gives way to [nodes], in order, in its place. *)
Definition splice (p : path) (nodes : Program) (body : Program) : Program :=
  flat_map (fun slot => if Nat.eqb (fst slot) p then nodes else [slot]) body.

End Tree.

(** The kinds of binding other than ['module']. *)
Inductive LocalKind : Type :=
| KVar | KLet | KConst | KHoisted | KParam | KLocal | KUnknown.

(** A binding of the entry scope, with the path of the statement that
    declares it ([binding.path.parentPath]): a binding of kind ['module'] is
    declared by an import declaration and comes with that declaration's
    source value ([binding.path.parent.source.value]). *)
Inductive Binding : Type :=
| ImportBinding (parentPath : path) (source : string)
| LocalBinding (kind : LocalKind) (parentPath : path).

Definition binding_parentPath (b : Binding) : path :=
  match b with ImportBinding p _ | LocalBinding _ p => p end.

(** [binding.kind] *)
Definition binding_kind (b : Binding) : string :=
  match b with
  | ImportBinding _ _ => "module"
  | LocalBinding KVar _ => "var"
  | LocalBinding KLet _ => "let"
  | LocalBinding KConst _ => "const"
  | LocalBinding KHoisted _ => "hoisted"
  | LocalBinding KParam _ => "param"
  | LocalBinding KLocal _ => "local"
  | LocalBinding KUnknown _ => "unknown"
  end.

(** The source of the import declaration of a module binding. *)
Definition binding_source (b : Binding) : option string :=
  match b with ImportBinding _ source => Some source | LocalBinding _ _ => None end.

(** [path.scope]: binding lookup and generation of unused identifiers, both
    supplied by the host framework. *)
Record Scope : Type := {
  getBinding : string -> option Binding;
  generateUidIdentifier : string -> string
}.

(** A deferred expansion: the closure returned by [_buildLogicalExpressions],
    holding the array and the call expression it captured. *)
Record Closure : Type := {
  identifiers : list expr;
  callExpression : expr
}.

(** [options.externalizeHelpers]: absent or false, [true], or an object with
    optional [global] and [module] entries. *)
Inductive HelpersOption : Type :=
| HelpersOff
| HelpersTrue
| HelpersObject (global : option string) (module : value).

(** One entry of [options.features].  A flag table is a plain object: the
    map holds its own keys. *)
Record Features : Type := {
  featuresImport : string;
  flags : gmap string Z
}.

Record Options : Type := {
  opt_packageVersion : string;
  opt_envFlags : gmap string Z;
  opt_features : list Features;
  opt_externalizeHelpers : HelpersOption
}.

Record MacroBuilder : Type := {
  expressions : list (path * Closure);
  localBindings : list string;
  importedBindings : list string;
  flagDeclarations : list stmt;
  importedDebugTools : bool;
  packageVersion : string;
  envFlags : gmap string Z;
  featureFlags : list Features;
  externalizeHelpers : bool;
  helpers : HelpersOption
}.

(** The builder together with the module body it rewrites. *)
Record State : Type := {
  this : MacroBuilder;
  body : Program
}.

(** ** Computations that mutate the state and may throw *)

Inductive Outcome (A : Type) : Type :=
| Returned (a : A)
| Thrown (e : exn).
Arguments Returned {A} a.
Arguments Thrown {A} e.

(** A method body: from the state before to its outcome and the state after.
    When an exception is thrown the state is the one reached at the throw. *)
Definition M (A : Type) : Type := State -> Outcome A * State.

Definition ret {A} (a : A) : M A := fun st => (Returned a, st).

Definition throw {A} (e : exn) : M A := fun st => (Thrown e, st).

Definition bind {A B} (m : M A) (k : A -> M B) : M B :=
  fun st =>
    match m st with
    | (Returned a, st') => k a st'
    | (Thrown e, st') => (Thrown e, st')
    end.

Definition get : M State := fun st => (Returned st, st).

Definition put (st : State) : M unit := fun _ => (Returned tt, st).

(** A pure computation that may throw, run inside a method. *)
Definition lift {A} (o : Outcome A) : M A := fun st => (o, st).

Declare Scope js_scope.
Delimit Scope js_scope with js.
Notation "x <- m ;; k" := (bind m (fun x => k))
  (at level 100, m at next level, right associativity) : js_scope.
Notation "m ;; k" := (bind m (fun _ => k))
  (at level 100, right associativity) : js_scope.
Local Open Scope js_scope.

(** Field assignments on the builder and the body. *)
Definition set_expressions (es : list (path * Closure)) (b : MacroBuilder) : MacroBuilder :=
  {| expressions := es;
     localBindings := localBindings b;
     importedBindings := importedBindings b;
     flagDeclarations := flagDeclarations b;
     importedDebugTools := importedDebugTools b;
     packageVersion := packageVersion b;
     envFlags := envFlags b;
     featureFlags := featureFlags b;
     externalizeHelpers := externalizeHelpers b;
     helpers := helpers b |}.

Definition set_bindings (imported local : list string) (b : MacroBuilder) : MacroBuilder :=
  {| expressions := expressions b;
     localBindings := local;
     importedBindings := imported;
     flagDeclarations := flagDeclarations b;
     importedDebugTools := true;
     packageVersion := packageVersion b;
     envFlags := envFlags b;
     featureFlags := featureFlags b;
     externalizeHelpers := externalizeHelpers b;
     helpers := helpers b |}.

Definition with_this (b : MacroBuilder) (st : State) : State :=
  {| this := b; body := body st |}.

Definition with_body (p : Program) (st : State) : State :=
  {| this := this st; body := p |}.

(** ** Tree mutation through paths *)

(** [path.node], for a path that must still be in the tree. *)
Definition node_of (p : path) : M stmt :=
  st <- get ;;
  match Tree.node p (body st) with
  | Some s => ret s
  | None => throw (TypeError "Cannot read properties of null")
  end.

(** [path.replaceWith(expression)]: the statement under the path becomes the
    expression, as an expression statement.  A removed path refuses. *)
Definition replaceWith (p : path) (e : expr) : M unit :=
  st <- get ;;
  match Tree.node p (body st) with
  | Some _ => put (with_body (Tree.set_node p (ExpressionStatement e) (body st)) st)
  | None => throw (Error "You can't replace this node, we've already removed it")
  end.

(** [path.remove()] *)
Definition remove (p : path) : M unit :=
  st <- get ;;
  match Tree.node p (body st) with
  | Some _ => put (with_body (Tree.drop_node p (body st)) st)
  | None => throw (Error "NodePath has been removed so is read-only.")
  end.

(** [path.replaceWithMultiple(nodes)] *)
Definition replaceWithMultiple (p : path) (nodes : list stmt) : M unit :=
  st <- get ;;
  match Tree.node p (body st) with
  | Some _ =>
      put (with_body (Tree.splice p (Tree.number (Tree.fresh (body st)) nodes) (body st)) st)
  | None => throw (Error "You can't replace this node, we've already removed it")
  end.

(** [path.node.body.unshift(statement)] on the program path *)
Definition unshift (s : stmt) : M unit :=
  st <- get ;;
  put (with_body ((Tree.fresh (body st), s) :: body st) st).

(** [path.node.expression.arguments] of a call statement *)
Definition call_arguments (p : path) : M (list expr) :=
  s <- node_of p ;;
  match s with
  | ExpressionStatement (CallExpression _ args) => ret args
  | _ => throw (TypeError "arguments of a node that is not a call")
  end.

(** ** The class *)

Definition DEBUG : string := "DEBUG".

Definition constructor (options : Options) : MacroBuilder :=
  {| expressions := [];
     localBindings := [];
     importedBindings := [];
     flagDeclarations := [];
     importedDebugTools := false;
     packageVersion := opt_packageVersion options;
     envFlags := opt_envFlags options;
     featureFlags := opt_features options;
     externalizeHelpers :=
       match opt_externalizeHelpers options with HelpersOff => false | _ => true end;
     helpers := opt_externalizeHelpers options |}.

(** [helpers.global] and [helpers.module] *)
Definition helpers_global (h : HelpersOption) : option string :=
  match h with HelpersObject g _ => g | _ => None end.

Definition helpers_module (h : HelpersOption) : value :=
  match h with HelpersObject _ m => m | _ => VUndefined end.

Definition _createGlobalExternalHelper (type : string) (args : list expr) (ns : string) : expr :=
  CallExpression (MemberExpression (Identifier ns) (Identifier type)) args.

Definition _createExternalHelper (type : string) (args : list expr) : expr :=
  CallExpression (Identifier type) args.

Definition _createConsoleAPI (type : string) (args : list expr) : expr :=
  CallExpression (MemberExpression (Identifier "console") (Identifier type)) args.

Definition _getIdentifiers (args : list expr) : list expr :=
  List.filter isIdentifier args.

(** [t.logicalExpression(operator, left, right)]: the node constructor
    rejects a missing operand. *)
Definition logicalExpression (operator : string) (left right : option expr) : Outcome expr :=
  match left, right with
  | Some l, Some r => Returned (LogicalExpression operator l r)
  | _, _ => Thrown (TypeError "LogicalExpression expected an operand of type Expression")
  end.

(** [t.parenthesizedExpression(expression)] *)
Definition parenthesizedExpression (expression : option expr) : Outcome expr :=
  match expression with
  | Some e => Returned (ParenthesizedExpression e)
  | None => Thrown (TypeError "ParenthesizedExpression expected an expression")
  end.

Definition _buildLogicalExpressions (identifiers : list expr) (callExpression : expr) : Closure :=
  {| identifiers := identifiers; callExpression := callExpression |}.

(** The [for] loop of the closure, from index [i] with [n] indices left. *)
Fixpoint logical_loop (ids : list expr) (i n : nat) (logicalExpressions : option expr)
  : Outcome (option expr) :=
  match n with
  | O => Returned logicalExpressions
  | S n' =>
      let left := ids !! i in
      let right := ids !! (i + 1) in
      match logicalExpressions with
      | None =>
          match logicalExpression "&&" left right with
          | Returned e => logical_loop ids (S i) n' (Some e)
          | Thrown x => Thrown x
          end
      | Some acc =>
          match right with
          | Some _ =>
              match logicalExpression "&&" (Some acc) right with
              | Returned e => logical_loop ids (S i) n' (Some e)
              | Thrown x => Thrown x
              end
          | None => logical_loop ids (S i) n' (Some acc)
          end
      end
  end.

(** Calling the closure with the guard name: the captured array gets the
    guard identifier in front and the call expression at the end, in place,
    and the loop folds it.  The result comes with the closure as the call
    leaves it. *)
Definition invoke (c : Closure) (binding : string) : Outcome (option expr) * Closure :=
  let ids := (Identifier binding :: identifiers c ++ [callExpression c])%list in
  (logical_loop ids 0 (length ids) None,
   {| identifiers := ids; callExpression := callExpression c |}).

(** [this.expressions[i] = entry], the closure of entry [i] after its call. *)
Definition store_expression (i : nat) (entry : path * Closure) : M unit :=
  st <- get ;;
  put (with_this (set_expressions (<[i := entry]> (expressions (this st))) (this st)) st).

Fixpoint expand_loop (binding : string) (i n : nat) : M unit :=
  match n with
  | O => ret tt
  | S n' =>
      st <- get ;;
      match expressions (this st) !! i with
      | None => ret tt
      | Some (exp, logicalExp) =>
          let '(result, logicalExp') := invoke logicalExp binding in
          store_expression i (exp, logicalExp') ;;
          e <- lift result ;;
          wrapped <- lift (parenthesizedExpression e) ;;
          replaceWith exp wrapped ;;
          expand_loop binding (S i) n'
      end
  end.

Definition _expand (binding : string) : M unit :=
  st <- get ;;
  expand_loop binding 0 (length (expressions (this st))).

(** The names every object finds on [Object.prototype]. *)
Definition object_prototype_members : list string :=
  [ "constructor"; "__defineGetter__"; "__defineSetter__"; "hasOwnProperty";
    "__lookupGetter__"; "__lookupSetter__"; "isPrototypeOf"; "propertyIsEnumerable";
    "toString"; "valueOf"; "__proto__"; "toLocaleString" ].

(** [flagTable[name]]: the flag under an own key, a member inherited from
    [Object.prototype] (a function or an object, never a number), or
    [undefined]. *)
Inductive Property : Type :=
| OwnFlag (flag : Z)
| InheritedMember
| NoProperty.

Definition property (flagTable : gmap string Z) (name : string) : Property :=
  match flagTable !! name with
  | Some flag => OwnFlag flag
  | None =>
      if existsb (String.eqb name) object_prototype_members then InheritedMember
      else NoProperty
  end.

(** [specifiers.map(...)] with a callback that throws: the declarations
    built so far are lost with the throw.  A value that is not [undefined]
    goes to [t.numericLiteral], which rejects what is not a number with a
    TypeError; the text of that message belongs to the node library and is
    abbreviated here, so the theorems speak of the kind of the exception
    only. *)
Fixpoint generateFlagConstants (specifiers : list ImportSpecifier)
    (flagTable : gmap string Z) (source : string) : Outcome (list stmt) :=
  match specifiers with
  | [] => Returned []
  | specifier :: rest =>
      match property flagTable (spec_imported specifier) with
      | OwnFlag flag =>
          match generateFlagConstants rest flagTable source with
          | Returned decls =>
              Returned (VariableDeclaration "const"
                          (Identifier (spec_imported specifier)) (NumericLiteral flag)
                        :: decls)
          | Thrown x => Thrown x
          end
      | InheritedMember =>
          Thrown (TypeError "NumericLiteral expected a value of type number")
      | NoProperty =>
          Thrown (Error ("Imported " +:+ spec_imported specifier +:+ " from " +:+ source
                         +:+ " which is not a supported flag."))
      end
  end.

(** [path.node] of an import declaration: its specifiers and source value. *)
Definition import_of (p : path) : M (list ImportSpecifier * string) :=
  s <- node_of p ;;
  match s with
  | ImportDeclaration specifiers source => ret (specifiers, source)
  | _ => throw (TypeError "specifiers of a node that is not an import declaration")
  end.

Definition inlineEnvFlags (p : path) : M unit :=
  decl <- import_of p ;;
  let '(specifiers, source) := decl in
  st <- get ;;
  flagDeclarations <- lift (generateFlagConstants specifiers (envFlags (this st)) source) ;;
  replaceWithMultiple p flagDeclarations.

Fixpoint inlineFeatureFlags_loop (p : path) (featureFlags : list Features) : M unit :=
  match featureFlags with
  | [] => ret tt
  | features :: rest =>
      decl <- import_of p ;;
      let '(specifiers, source) := decl in
      if String.eqb (featuresImport features) source then
        flagDeclarations <- lift (generateFlagConstants specifiers (flags features) source) ;;
        replaceWithMultiple p flagDeclarations
      else inlineFeatureFlags_loop p rest
  end.

Definition inlineFeatureFlags (p : path) : M unit :=
  st <- get ;;
  inlineFeatureFlags_loop p (featureFlags (this st)).

Definition collectSpecifiers (specifiers : list ImportSpecifier) : M unit :=
  st <- get ;;
  put (with_this
         (set_bindings
            (importedBindings (this st) ++ map spec_imported specifiers)%list
            (localBindings (this st) ++ map spec_local specifiers)%list
            (this st)) st).

Definition _hasDebugModule (debugBinding : option Binding) : bool :=
  match debugBinding with
  | Some (ImportBinding _ moduleName) => String.eqb moduleName "@ember/env-flags"
  | _ => false
  end.

(** [t.numericLiteral(this.envFlags.DEBUG)]: the node constructor rejects a
    value that is not a number. *)
Definition _injectDebug (name : string) : M unit :=
  st <- get ;;
  match envFlags (this st) !! DEBUG with
  | Some flag =>
      unshift (VariableDeclaration "const" (Identifier name) (NumericLiteral flag))
  | None => throw (TypeError "NumericLiteral expected a value of type number")
  end.

(** [importDeclaration.node.source.value = module] *)
Definition set_source (p : path) (module : string) : M unit :=
  decl <- import_of p ;;
  st <- get ;;
  put (with_body (Tree.set_node p (ImportDeclaration (fst decl) module) (body st)) st).

Definition _cleanImports (scope : Scope) : M unit :=
  st <- get ;;
  match localBindings (this st) with
  | [] => ret tt
  | first :: _ =>
      match getBinding scope first with
      | None => throw (TypeError "Cannot read properties of undefined")
      | Some binding =>
          let importDeclaration := binding_parentPath binding in
          if externalizeHelpers (this st) && truthy (helpers_module (helpers (this st))) then
            match helpers_module (helpers (this st)) with
            | VString module => set_source importDeclaration module
            | _ => ret tt
            end
          else remove importDeclaration
      end
  end.

(** [this.expressions.push(entry)] *)
Definition push_expression (entry : path * Closure) : M unit :=
  st <- get ;;
  put (with_this (set_expressions (expressions (this st) ++ [entry])%list (this st)) st).

(** [if (ns)]: the namespace is a non-empty string. *)
Definition has_namespace (ns : option string) : option string :=
  match ns with
  | Some name => if truthy (VString name) then Some name else None
  | None => None
  end.

Definition _warn (expression : path) : M unit :=
  args <- call_arguments expression ;;
  st <- get ;;
  let warn :=
    if externalizeHelpers (this st) then
      match has_namespace (helpers_global (helpers (this st))) with
      | Some ns => _createGlobalExternalHelper "warn" args ns
      | None => _createExternalHelper "warn" args
      end
    else _createConsoleAPI "warn" args in
  let identifiers := _getIdentifiers args in
  push_expression (expression, _buildLogicalExpressions [] warn).

Definition _assert (p : path) : M unit :=
  args <- call_arguments p ;;
  st <- get ;;
  let assert :=
    if externalizeHelpers (this st) then
      match has_namespace (helpers_global (helpers (this st))) with
      | Some ns => _createGlobalExternalHelper "assert" args ns
      | None => _createExternalHelper "assert" args
      end
    else _createConsoleAPI "assert" args in
  let identifiers := _getIdentifiers args in
  push_expression (p, _buildLogicalExpressions identifiers assert).

(** The [meta] object of [_deprecate]. *)
Record Meta : Type := {
  meta_url : value;
  meta_id : value;
  meta_until : value
}.

Definition empty_meta : Meta :=
  {| meta_url := VNull; meta_id := VNull; meta_until := VNull |}.

(** [meta[key.name] = value.value]; only [url], [id] and [until] are read
    afterwards. *)
Definition meta_assign (meta : Meta) (prop : expr * expr) : Meta :=
  match node_name (fst prop) with
  | Some name =>
      if String.eqb name "url" then
        {| meta_url := node_value (snd prop); meta_id := meta_id meta; meta_until := meta_until meta |}
      else if String.eqb name "id" then
        {| meta_url := meta_url meta; meta_id := node_value (snd prop); meta_until := meta_until meta |}
      else if String.eqb name "until" then
        {| meta_url := meta_url meta; meta_id := meta_id meta; meta_until := node_value (snd prop) |}
      else meta
  | None => meta
  end.

Definition read_meta (properties : list (expr * expr)) : Meta :=
  fold_left meta_assign properties empty_meta.

Definition _generateDeprecationMessage (message : expr) (meta : Meta) : expr :=
  StringLiteral
    ("DEPRECATED [" +:+ to_string (meta_id meta) +:+ "]: " +:+ to_string (node_value message)
     +:+ ". Will be removed in " +:+ to_string (meta_until meta) +:+ "."
     +:+ (if truthy (meta_url meta)
          then " See " +:+ to_string (meta_url meta) +:+ " for more information."
          else EmptyString)).

Definition requires_field (field : string) : string :=
  "deprecate's meta information requires an " +:+ dquote +:+ field +:+ dquote +:+ " field.".

Section Deprecate.

(** [satisfies(version, range)] of the semver library, which answers or
    throws (it throws on a version it cannot parse). *)
Variable satisfies : string -> string -> Outcome bool.

Definition _deprecate (expression : path) : M unit :=
  args <- call_arguments expression ;;
  match args with
  | message :: predicate :: ObjectExpression properties :: _ =>
      let meta := read_meta properties in
      if negb (truthy (meta_id meta)) then
        throw (ReferenceError (requires_field "id"))
      else if negb (truthy (meta_until meta)) then
        throw (ReferenceError (requires_field "until"))
      else
        st <- get ;;
        expired <- lift (satisfies (packageVersion (this st)) (to_string (meta_until meta))) ;;
        if (expired : bool) then
          remove expression
        else
          let deprecationMessage := _generateDeprecationMessage message meta in
          let deprecate :=
            if externalizeHelpers (this st) then
              match has_namespace (helpers_global (helpers (this st))) with
              | Some ns => _createGlobalExternalHelper "deprecate" [deprecationMessage] ns
              | None => _createExternalHelper "deprecate" [deprecationMessage]
              end
            else _createConsoleAPI "warn" [deprecationMessage] in
          push_expression (expression, _buildLogicalExpressions [predicate] deprecate)
  | _ => throw (TypeError "Cannot read properties of undefined (reading 'forEach')")
  end.

End Deprecate.

Definition injectFlags (scope : Scope) : M unit :=
  let debugBinding := getBinding scope DEBUG in
  (if negb (_hasDebugModule debugBinding) then
     let name := generateUidIdentifier scope DEBUG in
     st <- get ;;
     (if (0 <? length (expressions (this st)))%nat then _injectDebug name else ret tt) ;;
     _expand name
   else
     _expand DEBUG ;;
     match debugBinding with
     | Some b => inlineEnvFlags (binding_parentPath b)
     | None => throw (TypeError "Cannot read properties of undefined")
     end) ;;
  _cleanImports scope.

(** ** What the specification calls the guarded expression *)

(** The short-circuit chain [guard && c1 && ... && cn && terminal], each
    [&&] taking the expression combined so far as its left operand. *)
Definition guard_chain (guard : string) (conditions : list expr) (terminal : expr) : expr :=
  fold_left (LogicalExpression "&&") (conditions ++ [terminal])%list (Identifier guard).

(** The operand reached by descending into left operands. *)
Fixpoint leftmost (e : expr) : expr :=
  match e with
  | LogicalExpression _ l _ => leftmost l
  | _ => e
  end.

(** The closure after it has been called with each guard name of [guards]
    in turn. *)
Definition invoke_all (c : Closure) (guards : list string) : Closure :=
  fold_left (fun c g => snd (invoke c g)) guards c.

(** The registered expansions as the finalization pass leaves the tree:
    every call site holds its parenthesized chain. *)
Definition expanded (binding : string) (entry : path * Closure) : stmt :=
  ExpressionStatement
    (ParenthesizedExpression
       (guard_chain binding (identifiers (snd entry)) (callExpression (snd entry)))).

(** The tree after the entries [es] have been expanded in order. *)
Definition expand_body (g : string) (es : list (path * Closure)) (b : Program) : Program :=
  fold_left (fun b e => Tree.set_node (fst e) (expanded g e) b) es b.

(** A property key is absent from an object literal's properties. *)
Definition lacks_field (name : string) (properties : list (expr * expr)) : bool :=
  forallb (fun prop =>
             match node_name (fst prop) with
             | Some key => negb (String.eqb key name)
             | None => true
             end) properties.

(** The flag table selected for an import from [source]: the table of the
    first configured feature set with that module name. *)
Definition selected_features (source : string) (featureFlags : list Features) : option Features :=
  List.find (fun features => String.eqb (featuresImport features) source) featureFlags.


(** ** A small module to run the builder on *)

Module Sample.

Definition options (h : HelpersOption) : Options :=
  {| opt_packageVersion := "1.0.0";
     opt_envFlags := {[ "DEBUG" := 1%Z ]};
     opt_features := [ {| featuresImport := "features"; flags := {[ "FEATURE_A" := 0%Z ]} |} ];
     opt_externalizeHelpers := h |}.

Definition tools : list ImportSpecifier :=
  [ {| spec_imported := "assert"; spec_local := "assert" |};
    {| spec_imported := "warn"; spec_local := "warn" |};
    {| spec_imported := "deprecate"; spec_local := "deprecate" |} ].

Definition foo_meta : list (expr * expr) :=
  [ (Identifier "id", StringLiteral "foo-dep");
    (Identifier "until", StringLiteral ">=2.0.0");
    (Identifier "url", StringLiteral "http://x") ].

(** [import { assert, warn, deprecate } from 'debug-tools';]
    [assert(x, "message");]
    [warn("message");]
    [deprecate("Foo is bad", isBad, { id: ..., until: ..., url: ... });]
    [import { DEBUG, TESTING } from '@ember/env-flags';] *)
Definition program : Program :=
  [ (0, ImportDeclaration tools "debug-tools");
    (1, ExpressionStatement
          (CallExpression (Identifier "assert") [Identifier "x"; StringLiteral "message"]));
    (2, ExpressionStatement
          (CallExpression (Identifier "warn") [StringLiteral "message"]));
    (3, ExpressionStatement
          (CallExpression (Identifier "deprecate")
             [StringLiteral "Foo is bad"; Identifier "isBad"; ObjectExpression foo_meta]));
    (4, ImportDeclaration
          [ {| spec_imported := "DEBUG"; spec_local := "DEBUG" |};
            {| spec_imported := "TESTING"; spec_local := "TESTING" |} ]
          "@ember/env-flags") ].

Definition state (h : HelpersOption) : State :=
  {| this := constructor (options h); body := program |}.

Definition imports (name : string) : option Binding :=
  if String.eqb name "assert" || String.eqb name "warn" || String.eqb name "deprecate"
  then Some (ImportBinding 0 "debug-tools")
  else None.

(** The scope of a module that has no [DEBUG] binding. *)
Definition scope : Scope :=
  {| getBinding := imports;
     generateUidIdentifier := fun name => "_" +:+ name |}.

(** The scope of a module that imports [DEBUG] from the env-flags module. *)
Definition scope_with_debug : Scope :=
  {| getBinding := fun name =>
       if String.eqb name "DEBUG" then Some (ImportBinding 4 "@ember/env-flags")
       else imports name;
     generateUidIdentifier := fun name => "_" +:+ name |}.

(** The two expansions registered for the assert and warn statements. *)
Definition registered : State :=
  with_this
    (set_expressions
       [ (1, _buildLogicalExpressions [Identifier "x"]
               (_createConsoleAPI "assert" [Identifier "x"; StringLiteral "message"]));
         (2, _buildLogicalExpressions []
               (_createConsoleAPI "warn" [StringLiteral "message"])) ]
       (this (state HelpersOff)))
    (state HelpersOff).

(** The same, for an environment table that knows both imported flags. *)
Definition registered_all_flags : State :=
  with_this
    (set_expressions (expressions (this registered))
       (constructor
          {| opt_packageVersion := "1.0.0";
             opt_envFlags := {[ "DEBUG" := 1%Z; "TESTING" := 0%Z ]};
             opt_features := [];
             opt_externalizeHelpers := HelpersOff |}))
    registered.

Definition expired (version range : string) : Outcome bool := Returned true.

Definition not_expired (version range : string) : Outcome bool := Returned false.

End Sample.

(** ** The macro dispatcher *)

(** [array.indexOf(x)]: the first index holding [x]. *)
Fixpoint indexOf (l : list string) (x : string) : option nat :=
  match l with
  | [] => None
  | y :: rest => if String.eqb y x then Some 0 else option_map S (indexOf rest x)
  end.

Section Dispatch.

Variable satisfies : string -> string -> Outcome bool.

(** [this[name]] for a property name other than the three macro builders:
    some other member of the builder, called with the path, or nothing
    ([undefined], which cannot be called). *)
Variable other_member : string -> option (path -> M unit).

(** [this[name]] *)
Definition member (name : string) : option (path -> M unit) :=
  if String.eqb name "_assert" then Some _assert
  else if String.eqb name "_warn" then Some _warn
  else if String.eqb name "_deprecate" then Some (_deprecate satisfies)
  else other_member name.

Definition buildExpression (p : path) : M unit :=
  s <- node_of p ;;
  st <- get ;;
  match s with
  | ExpressionStatement (CallExpression callee _) =>
      match node_name callee with
      | Some name =>
          match indexOf (localBindings (this st)) name with
          | Some i =>
              let imported :=
                match importedBindings (this st) !! i with
                | Some imported => imported
                | None => "undefined"
                end in
              match member ("_" +:+ imported) with
              | Some method => method p
              | None => throw (TypeError "this[...] is not a function")
              end
          | None => ret tt
          end
      | None => ret tt
      end
  | _ => ret tt
  end.

End Dispatch.

(** ** Notions used to state what the builder keeps *)

(** The builder with its registry of pending expansions left out. *)
Definition configuration (b : MacroBuilder) : MacroBuilder := set_expressions [] b.

(** A registered entry after its closure has been called with [g]. *)
Definition called (g : string) (entry : path * Closure) : path * Closure :=
  (fst entry, snd (invoke (snd entry) g)).

(** The callee the helper options select for a macro: a member of the global
    namespace, a bare identifier, or a member of [console]. *)
Definition helper_callee (h : HelpersOption) (external console : string) : expr :=
  match h with
  | HelpersOff => MemberExpression (Identifier "console") (Identifier console)
  | HelpersTrue => Identifier external
  | HelpersObject None _ => Identifier external
  | HelpersObject (Some ns) _ =>
      if is_empty ns then Identifier external
      else MemberExpression (Identifier ns) (Identifier external)
  end.

(** A property of a metadata object literal that [_deprecate] reads: its key
    is the identifier [url], [id] or [until]. *)
Definition recognised (prop : expr * expr) : bool :=
  match node_name (fst prop) with
  | Some key => String.eqb key "url" || String.eqb key "id" || String.eqb key "until"
  | None => false
  end.

(** The field of the metadata record stored under a recognised key. *)
Definition meta_field (key : string) (meta : Meta) : value :=
  if String.eqb key "url" then meta_url meta
  else if String.eqb key "id" then meta_id meta
  else meta_until meta.

(** The message of the error thrown for an unknown flag. *)
Definition unsupported_flag (name source : string) : string :=
  "Imported " +:+ name +:+ " from " +:+ source +:+ " which is not a supported flag.".

(** ** A module with aliased helpers *)

Module Aliased.

Definition tools : list ImportSpecifier :=
  [ {| spec_imported := "assert"; spec_local := "check" |};
    {| spec_imported := "warn"; spec_local := "warn" |} ].

(** [import { assert as check, warn } from 'debug-tools';]
    [check(ok, "message");]
    [import { FEATURE_A, FEATURE_B } from 'features';]
    [other(ok);] *)
Definition program : Program :=
  [ (0, ImportDeclaration tools "debug-tools");
    (1, ExpressionStatement
          (CallExpression (Identifier "check") [Identifier "ok"; StringLiteral "message"]));
    (2, ImportDeclaration
          [ {| spec_imported := "FEATURE_A"; spec_local := "FEATURE_A" |};
            {| spec_imported := "FEATURE_B"; spec_local := "FEATURE_B" |} ]
          "features");
    (3, ExpressionStatement (CallExpression (Identifier "other") [Identifier "ok"])) ].

Definition options (h : HelpersOption) : Options :=
  {| opt_packageVersion := "1.0.0";
     opt_envFlags := {[ "DEBUG" := 1%Z ]};
     opt_features :=
       [ {| featuresImport := "features";
            flags := {[ "FEATURE_A" := 0%Z; "FEATURE_B" := 1%Z ]} |};
         {| featuresImport := "features"; flags := {[ "FEATURE_A" := 7%Z ]} |} ];
     opt_externalizeHelpers := h |}.

Definition state (h : HelpersOption) : State :=
  {| this := constructor (options h); body := program |}.

Definition scope : Scope :=
  {| getBinding := fun name =>
       if String.eqb name "check" || String.eqb name "warn"
       then Some (ImportBinding 0 "debug-tools")
       else None;
     generateUidIdentifier := fun name => "_" +:+ name |}.

Definition no_member (name : string) : option (path -> M unit) := None.

(** [import { debug } from 'debug-tools';]
    [debug("message");] *)
Definition unknown_helper : State :=
  {| this :=
       set_bindings ["debug"] ["debug"] (constructor (options HelpersOff));
     body :=
       [ (0, ImportDeclaration [ {| spec_imported := "debug"; spec_local := "debug" |} ]
               "debug-tools");
         (1, ExpressionStatement
               (CallExpression (Identifier "debug") [StringLiteral "message"])) ] |}.

End Aliased.

(** ** Paths and the tree *)

Section TreeFacts.

Implicit Types (p q : path) (s : stmt) (b : Program).

Lemma node_set_node_eq p s b :
  is_Some (Tree.node p b) -> Tree.node p (Tree.set_node p s b) = Some s.
Proof.
  induction b as [|[k s0] b IH]; simpl; intros H.
  - destruct H as [? H]; discriminate.
  - destruct (Nat.eqb k p) eqn:E; simpl; rewrite E; auto.
Qed.

Lemma node_set_node_ne p q s b :
  p <> q -> Tree.node p (Tree.set_node q s b) = Tree.node p b.
Proof.
  intros Hne. induction b as [|[k s0] b IH]; simpl; auto.
  destruct (Nat.eqb k q) eqn:E; simpl.
  - apply Nat.eqb_eq in E; subst k.
    destruct (Nat.eqb q p) eqn:E'; auto.
    apply Nat.eqb_eq in E'; congruence.
  - destruct (Nat.eqb k p); auto.
Qed.

Lemma node_set_node_is_Some p q s b :
  is_Some (Tree.node p b) -> is_Some (Tree.node p (Tree.set_node q s b)).
Proof.
  intros H. destruct (Nat.eq_dec p q) as [->|Hne].
  - rewrite node_set_node_eq; eauto.
  - rewrite node_set_node_ne; auto.
Qed.

Lemma node_drop_node_eq p b : Tree.node p (Tree.drop_node p b) = None.
Proof.
  induction b as [|[k s0] b IH]; simpl; auto.
  destruct (Nat.eqb k p) eqn:E; simpl; auto. rewrite E; auto.
Qed.

Lemma node_drop_node_ne p q b :
  p <> q -> Tree.node p (Tree.drop_node q b) = Tree.node p b.
Proof.
  intros Hne. induction b as [|[k s0] b IH]; simpl; auto.
  destruct (Nat.eqb k q) eqn:E; simpl.
  - apply Nat.eqb_eq in E; subst k.
    destruct (Nat.eqb q p) eqn:E'; auto.
    apply Nat.eqb_eq in E'; congruence.
  - destruct (Nat.eqb k p); auto.
Qed.

End TreeFacts.

(** ** The closure's loop *)

Section LogicalLoop.

Variable ids : list expr.

(** Once the first [&&] exists, the loop adds one [&&] per remaining
    element and stops on the index whose right neighbour is missing. *)
Lemma logical_loop_acc (n i : nat) (acc : expr) :
  i + n = length ids ->
  logical_loop ids i n (Some acc)
  = Returned (Some (fold_left (LogicalExpression "&&") (drop (S i) ids) acc)).
Proof.
  revert i acc. induction n as [|n IH]; intros i acc Hlen.
  - simpl. rewrite drop_ge by lia. reflexivity.
  - cbn [logical_loop]. replace (i + 1) with (S i) by lia.
    destruct (ids !! S i) as [r|] eqn:Hr.
    + cbn [logicalExpression]. rewrite IH by lia.
      rewrite (drop_S _ _ _ Hr). reflexivity.
    + rewrite IH by lia. apply lookup_ge_None in Hr.
      rewrite !drop_ge by lia. reflexivity.
Qed.

(** The first index builds the first [&&] from the first two elements. *)
Lemma logical_loop_first (n : nat) (l r : expr) :
  ids !! 0 = Some l -> ids !! 1 = Some r ->
  logical_loop ids 0 (S n) None
  = logical_loop ids 1 n (Some (LogicalExpression "&&" l r)).
Proof.
  intros Hl Hr. cbn [logical_loop]. change (0 + 1) with 1.
  rewrite Hl, Hr. reflexivity.
Qed.

End LogicalLoop.

Lemma logical_loop_invoke (conds : list expr) (T : expr) (g : string) :
  let ids := (Identifier g :: conds ++ [T])%list in
  logical_loop ids 0 (length ids) None = Returned (Some (guard_chain g conds T)).
Proof.
  unfold guard_chain; cbn zeta.
  destruct (conds ++ [T])%list as [|r rest] eqn:E.
  - destruct conds; discriminate.
  - cbn [length].
    rewrite (logical_loop_first _ _ (Identifier g) r) by reflexivity.
    rewrite logical_loop_acc by (cbn [length]; lia). reflexivity.
Qed.

Lemma invoke_result (c : Closure) (g : string) :
  fst (invoke c g)
  = Returned (Some (guard_chain g (identifiers c) (callExpression c))).
Proof. apply logical_loop_invoke. Qed.

Lemma invoke_closure (c : Closure) (g : string) :
  snd (invoke c g)
  = {| identifiers := (Identifier g :: identifiers c ++ [callExpression c])%list;
       callExpression := callExpression c |}.
Proof. reflexivity. Qed.

Lemma leftmost_fold (l : list expr) (acc : expr) :
  leftmost (fold_left (LogicalExpression "&&") l acc) = leftmost acc.
Proof.
  revert acc. induction l as [|x l IH]; intros acc; simpl; auto.
  rewrite IH. reflexivity.
Qed.

Lemma leftmost_guard_chain g conds T : leftmost (guard_chain g conds T) = Identifier g.
Proof. unfold guard_chain. rewrite leftmost_fold. reflexivity. Qed.

(** ** Finalization *)

Section Expand.

Variable g : string.

Lemma expand_loop_body (n i : nat) (st : State) :
  i + n = length (expressions (this st)) ->
  (forall e, e ∈ drop i (expressions (this st)) ->
             is_Some (Tree.node (fst e) (body st))) ->
  exists st',
    expand_loop g i n st = (Returned tt, st')
    /\ body st' = expand_body g (drop i (expressions (this st))) (body st).
Proof.
  revert i st. induction n as [|n IH]; intros i st Hlen Hsites.
  - exists st. rewrite drop_ge by lia. split; reflexivity.
  - destruct (lookup_lt_is_Some_2 (expressions (this st)) i) as [[p c] Hi]; [lia|].
    pose proof (drop_S _ _ _ Hi) as Hdrop.
    destruct (Hsites (p, c)) as [s0 Hs0]; [rewrite Hdrop; left|].
    set (st1 := with_body (Tree.set_node p (expanded g (p, c)) (body st))
                  (with_this (set_expressions (<[i := (p, snd (invoke c g))]>
                                                 (expressions (this st))) (this st)) st)).
    destruct (IH (S i) st1) as (st' & Hrun & Hbody).
    + cbn. rewrite length_insert. lia.
    + intros e He. cbn in He. rewrite drop_insert_lt in He by lia.
      cbn. apply node_set_node_is_Some. apply Hsites.
      rewrite Hdrop. right. exact He.
    + exists st'. split.
      * rewrite <- Hrun. cbn [expand_loop]. unfold bind at 1, get at 1.
        rewrite Hi. unfold invoke. cbn iota.
        unfold bind at 1, store_expression, bind at 1, get at 1, put.
        rewrite logical_loop_invoke.
        unfold bind at 1, lift at 1. unfold bind at 1, lift at 1.
        cbn [parenthesizedExpression].
        unfold bind at 1, replaceWith, bind at 1, get at 1. cbn [body with_body with_this].
        cbn in Hs0. rewrite Hs0. reflexivity.
      * rewrite Hbody. cbn. rewrite drop_insert_lt by lia.
        rewrite Hdrop. reflexivity.
Qed.

Lemma node_expand_body_other (es : list (path * Closure)) (b : Program) (p : path) :
  p ∉ map fst es -> Tree.node p (expand_body g es b) = Tree.node p b.
Proof.
  revert b. induction es as [|e es IH]; intros b Hp; cbn; auto.
  cbn in Hp. apply not_elem_of_cons in Hp as [Hne Hp].
  unfold expand_body in IH. rewrite IH by exact Hp.
  apply node_set_node_ne. exact Hne.
Qed.

Lemma node_expand_body (es : list (path * Closure)) (b : Program) (e : path * Closure) :
  NoDup (map fst es) -> e ∈ es -> is_Some (Tree.node (fst e) b) ->
  Tree.node (fst e) (expand_body g es b) = Some (expanded g e).
Proof.
  revert b. induction es as [|e0 es IH]; intros b Hnd He Hsome.
  - inversion He.
  - cbn in Hnd. apply NoDup_cons in Hnd as [Hnotin Hnd].
    apply elem_of_cons in He as [->|He].
    + cbn. fold (expand_body g es (Tree.set_node (fst e0) (expanded g e0) b)).
      rewrite node_expand_body_other by exact Hnotin.
      apply node_set_node_eq. exact Hsome.
    + cbn. fold (expand_body g es (Tree.set_node (fst e0) (expanded g e0) b)).
      apply IH; auto. apply node_set_node_is_Some. exact Hsome.
Qed.

End Expand.

(** C1. For every sequence of leading conditions and terminal call, the
    closure built by [_buildLogicalExpressions], called with a guard name,
    returns the left-associated chain [g && c1 && ... && cn && T]; its
    leftmost operand is the guard identifier; with no leading condition it
    is exactly [g && T]; and [_expand] replaces every registered call site
    by its closure's result inside a parenthesized expression, leaving the
    other statements as they were. *)
Theorem logical_guard_chain_finalized (g : string) (st : State) :
  NoDup (map fst (expressions (this st))) ->
  (forall e, e ∈ expressions (this st) -> is_Some (Tree.node (fst e) (body st))) ->
  (forall conds T,
      fst (invoke (_buildLogicalExpressions conds T) g)
      = Returned (Some (guard_chain g conds T))
      /\ leftmost (guard_chain g conds T) = Identifier g)
  /\ (forall T, guard_chain g [] T = LogicalExpression "&&" (Identifier g) T)
  /\ exists st',
      _expand g st = (Returned tt, st')
      /\ (forall p c, (p, c) ∈ expressions (this st) ->
            Tree.node p (body st')
            = Some (ExpressionStatement
                      (ParenthesizedExpression
                         (guard_chain g (identifiers c) (callExpression c)))))
      /\ (forall p, p ∉ map fst (expressions (this st)) ->
            Tree.node p (body st') = Tree.node p (body st)).
Proof.
  intros Hnd Hsites. split; [|split].
  - intros conds T. split.
    + apply invoke_result.
    + apply leftmost_guard_chain.
  - reflexivity.
  - destruct (expand_loop_body g (length (expressions (this st))) 0 st) as (st' & Hrun & Hbody).
    + lia.
    + intros e He. rewrite drop_0 in He. auto.
    + rewrite drop_0 in Hbody. exists st'. split; [exact Hrun|]. split.
      * intros p c Hin. rewrite Hbody.
        apply (node_expand_body g _ _ (p, c)); auto.
      * intros p Hp. rewrite Hbody. apply node_expand_body_other. exact Hp.
Qed.

Lemma logical_guard_chain_finalized_witness :
  exists st',
    _expand "_DEBUG" Sample.registered = (Returned tt, st')
    /\ Tree.node 1 (body st')
       = Some (ExpressionStatement
                 (ParenthesizedExpression
                    (LogicalExpression "&&"
                       (LogicalExpression "&&" (Identifier "_DEBUG") (Identifier "x"))
                       (CallExpression
                          (MemberExpression (Identifier "console") (Identifier "assert"))
                          [Identifier "x"; StringLiteral "message"])))).
Proof.
  assert (Hnd : NoDup (map fst (expressions (this Sample.registered)))).
  { apply (bool_decide_unpack _). vm_compute. reflexivity. }
  assert (Hsites : forall e, e ∈ expressions (this Sample.registered) ->
                             is_Some (Tree.node (fst e) (body Sample.registered))).
  { intros e He. cbn in He.
    repeat (apply elem_of_cons in He as [->|He]); cbn; eauto. inversion He. }
  destruct (logical_guard_chain_finalized "_DEBUG" Sample.registered Hnd Hsites)
    as (_ & _ & st' & Hrun & Hreg & _).
  exists st'. split; [exact Hrun|].
  apply (Hreg 1 (_buildLogicalExpressions [Identifier "x"]
                   (_createConsoleAPI "assert" [Identifier "x"; StringLiteral "message"]))).
  cbn. left.
Defined.

(** ** Calling a closure more than once *)

Lemma invoke_all_identifiers (gs : list string) (c : Closure) :
  invoke_all c gs
  = {| identifiers :=
         (map Identifier (rev gs) ++ identifiers c
            ++ repeat (callExpression c) (length gs))%list;
       callExpression := callExpression c |}.
Proof.
  revert c. induction gs as [|g gs IH]; intros c.
  - cbn. rewrite app_nil_r. destruct c; reflexivity.
  - cbn [invoke_all fold_left]. fold (invoke_all (snd (invoke c g)) gs).
    rewrite IH, invoke_closure. cbn [identifiers callExpression length rev repeat].
    f_equal. rewrite map_app. cbn [map].
    rewrite <- !app_assoc. cbn [app]. rewrite <- !app_assoc. reflexivity.
Qed.

(** The builders change the registry by adding entries at its end, if at
    all: a closure already registered stays as it is. *)
Lemma push_expression_appends (st : State) (entry : path * Closure) :
  expressions (this (snd (push_expression entry st)))
  = (expressions (this st) ++ [entry])%list.
Proof. reflexivity. Qed.

Ltac registry_kept :=
  exists []; cbn; rewrite app_nil_r; reflexivity.

Ltac registry_grown :=
  eexists; rewrite push_expression_appends; reflexivity.

Lemma call_arguments_cases (p : path) (st : State) :
  (exists args, call_arguments p st = (Returned args, st))
  \/ (exists e, call_arguments p st = (Thrown e, st)).
Proof.
  unfold call_arguments, node_of, bind, get.
  destruct (Tree.node p (body st)) as [[e| |]|]; try (right; eexists; reflexivity).
  destruct e; try (right; eexists; reflexivity).
  left. eexists. reflexivity.
Qed.

Lemma builders_append (satisfies : string -> string -> Outcome bool)
    (st : State) (p : path) :
  (exists added,
      expressions (this (snd (_assert p st))) = (expressions (this st) ++ added)%list)
  /\ (exists added,
        expressions (this (snd (_warn p st))) = (expressions (this st) ++ added)%list)
  /\ (exists added,
        expressions (this (snd (_deprecate satisfies p st)))
        = (expressions (this st) ++ added)%list).
Proof.
  destruct (call_arguments_cases p st) as [[args Hargs]|[e He]].
  - split; [|split].
    + unfold _assert, bind at 1. rewrite Hargs. unfold bind at 1, get at 1. registry_grown.
    + unfold _warn, bind at 1. rewrite Hargs. unfold bind at 1, get at 1. registry_grown.
    + unfold _deprecate, bind at 1. rewrite Hargs.
      destruct args as [|message [|predicate [|metaExpression rest]]]; try registry_kept.
      destruct metaExpression; try registry_kept.
      destruct (truthy (meta_id (read_meta properties))); [|registry_kept].
      destruct (truthy (meta_until (read_meta properties))); [|registry_kept].
      cbn [negb]. unfold bind at 1, get at 1. unfold bind at 1, lift at 1.
      destruct (satisfies _ _) as [[|]|]; [|registry_grown|registry_kept].
      unfold remove, bind, get, put.
      destruct (Tree.node p (body st)); registry_kept.
  - split; [|split].
    + unfold _assert, bind at 1. rewrite He. registry_kept.
    + unfold _warn, bind at 1. rewrite He. registry_kept.
    + unfold _deprecate, bind at 1. rewrite He. registry_kept.
Qed.

(** C9, as the code has it.  Until it is called the closure has no effect:
    it holds the conditions and the terminal call as they were given, and
    the builders, which only add entries to the registry, leave a registered
    closure as it is.  Its first call with guard name [g] returns the chain
    over the registered conditions and terminal call.  Each call puts the
    guard identifier in front of the captured array and the terminal call at
    its end, in place, so a call made after calls with guard names [gs]
    returns the chain over the longer array: the earlier guards, most recent
    first, then the conditions, then one more terminal call per earlier
    call. *)
Theorem closure_calls_accumulate (satisfies : string -> string -> Outcome bool)
    (conds : list expr) (T : expr) (gs : list string) (g : string) :
  let c := _buildLogicalExpressions conds T in
  (identifiers c = conds /\ callExpression c = T
   /\ forall (st : State) (p : path) (builder : path -> M unit),
        builder = _assert \/ builder = _warn \/ builder = _deprecate satisfies ->
        exists added,
          expressions (this (snd (builder p st)))
          = (expressions (this st) ++ added)%list)
  /\ fst (invoke c g) = Returned (Some (guard_chain g conds T))
  /\ snd (invoke c g) = _buildLogicalExpressions (Identifier g :: conds ++ [T])%list T
  /\ invoke_all c gs
     = _buildLogicalExpressions
         (map Identifier (rev gs) ++ conds ++ repeat T (length gs))%list T
  /\ fst (invoke (invoke_all c gs) g)
     = Returned (Some (guard_chain g
                         (map Identifier (rev gs) ++ conds ++ repeat T (length gs))%list T)).
Proof.
  cbn zeta. split; [|split; [|split; [|split]]].
  - split; [reflexivity|]. split; [reflexivity|].
    intros st p builder Hbuilder.
    destruct (builders_append satisfies st p) as (Hassert & Hwarn & Hdeprecate).
    destruct Hbuilder as [->|[->| ->]]; assumption.
  - apply invoke_result.
  - reflexivity.
  - apply invoke_all_identifiers.
  - rewrite invoke_result, invoke_all_identifiers. reflexivity.
Qed.

(** C9, as stated, fails: the second call of a closure with the same guard
    name does not return what the first call returned. *)
Lemma closure_second_call_differs :
  let c := _buildLogicalExpressions [] (_createConsoleAPI "warn" [StringLiteral "message"]) in
  fst (invoke (snd (invoke c "_DEBUG")) "_DEBUG") <> fst (invoke c "_DEBUG").
Proof. vm_compute. discriminate. Qed.

Lemma closure_calls_accumulate_witness :
  let warn := _createConsoleAPI "warn" [StringLiteral "message"] in
  fst (invoke (invoke_all (_buildLogicalExpressions [] warn) ["_DEBUG"]) "_DEBUG")
  = Returned
      (Some (LogicalExpression "&&"
               (LogicalExpression "&&"
                  (LogicalExpression "&&" (Identifier "_DEBUG") (Identifier "_DEBUG")) warn)
               warn)).
Proof.
  intros warn.
  destruct (closure_calls_accumulate Sample.expired [] warn ["_DEBUG"] "_DEBUG")
    as (_ & _ & _ & _ & Hlater).
  rewrite Hlater. reflexivity.
Defined.

(** ** Flag tables *)

Lemma property_own (flagTable : gmap string Z) (name : string) (flag : Z) :
  flagTable !! name = Some flag -> property flagTable name = OwnFlag flag.
Proof. intros H. unfold property. rewrite H. reflexivity. Qed.

Lemma inherited_member (name : string) :
  existsb (String.eqb name) object_prototype_members = true
  <-> name ∈ object_prototype_members.
Proof.
  rewrite existsb_exists. split.
  - intros (x & Hin & Heq). apply String.eqb_eq in Heq. subst x.
    apply list_elem_of_In. exact Hin.
  - intros Hin. exists name. split; [apply list_elem_of_In; exact Hin|].
    apply String.eqb_refl.
Qed.

Lemma property_undefined (flagTable : gmap string Z) (name : string) :
  flagTable !! name = None -> name ∉ object_prototype_members ->
  property flagTable name = NoProperty.
Proof.
  intros Hnone Hnot. unfold property. rewrite Hnone.
  destruct (existsb (String.eqb name) object_prototype_members) eqn:E; [|reflexivity].
  apply inherited_member in E. contradiction.
Qed.

Lemma property_inherited (flagTable : gmap string Z) (name : string) :
  flagTable !! name = None -> name ∈ object_prototype_members ->
  property flagTable name = InheritedMember.
Proof.
  intros Hnone Hin. unfold property. rewrite Hnone.
  apply inherited_member in Hin. rewrite Hin. reflexivity.
Qed.

Section FlagConstants.

Variables (flagTable : gmap string Z) (source : string).

(** With every imported name in the table there is one declaration per
    specifier, in the order of the specifiers, holding the table's value;
    the declared identifier is the imported name. *)
Lemma generateFlagConstants_known (specifiers : list ImportSpecifier) :
  Forall (fun s => is_Some (flagTable !! spec_imported s)) specifiers ->
  exists decls,
    generateFlagConstants specifiers flagTable source = Returned decls
    /\ Forall2 (fun s d => exists flag,
                    flagTable !! spec_imported s = Some flag
                    /\ d = VariableDeclaration "const" (Identifier (spec_imported s))
                             (NumericLiteral flag))
         specifiers decls.
Proof.
  induction 1 as [|s specifiers [flag Hflag] _ (decls & Hrun & Hall)].
  - exists []. split; [reflexivity|constructor].
  - exists (VariableDeclaration "const" (Identifier (spec_imported s)) (NumericLiteral flag)
            :: decls). split.
    + cbn. rewrite (property_own _ _ _ Hflag), Hrun. reflexivity.
    + constructor; eauto.
Qed.

(** With an imported name missing from the table, and none that the table
    inherits, the call throws for the first missing one and returns no
    declaration. *)
Lemma generateFlagConstants_unknown (specifiers : list ImportSpecifier) :
  Forall (fun s => spec_imported s ∉ object_prototype_members) specifiers ->
  Exists (fun s => flagTable !! spec_imported s = None) specifiers ->
  exists s,
    s ∈ specifiers
    /\ flagTable !! spec_imported s = None
    /\ generateFlagConstants specifiers flagTable source
       = Thrown (Error ("Imported " +:+ spec_imported s +:+ " from " +:+ source
                        +:+ " which is not a supported flag.")).
Proof.
  induction specifiers as [|s0 specifiers IH]; intros Hplain Hex.
  - inversion Hex.
  - apply Forall_cons in Hplain as [Hplain0 Hplain].
    destruct (flagTable !! spec_imported s0) as [flag|] eqn:Hflag.
    + apply Exists_cons in Hex as [Hex|Hex]; [congruence|].
      destruct (IH Hplain Hex) as (s & Hin & Hnone & Hrun).
      exists s. split; [right; exact Hin|]. split; [exact Hnone|].
      cbn. rewrite (property_own _ _ _ Hflag), Hrun. reflexivity.
    + exists s0. split; [left|]. split; [exact Hflag|].
      cbn. rewrite (property_undefined _ _ Hflag Hplain0). reflexivity.
Qed.

End FlagConstants.

Lemma append_cons (x : ascii) (a b : string) : String x a +:+ b = String x (a +:+ b).
Proof. reflexivity. Qed.

Lemma append_assoc (a b c : string) : (a +:+ b) +:+ c = a +:+ b +:+ c.
Proof.
  induction a as [|x a IH]; [reflexivity|].
  rewrite !append_cons, IH. reflexivity.
Qed.

Lemma prefix_append (a b : string) : String.prefix a (a +:+ b) = true.
Proof.
  induction a as [|x a IH]; [destruct b; reflexivity|].
  rewrite append_cons. cbn [String.prefix].
  destruct (ascii_dec x x); [exact IH|congruence].
Qed.

Lemma includes_append (needle a b : string) : includes needle (a +:+ needle +:+ b) = true.
Proof.
  induction a as [|x a IH].
  - change (EmptyString +:+ needle +:+ b) with (needle +:+ b).
    destruct (needle +:+ b) eqn:E; cbn [includes];
      rewrite <- E, prefix_append; reflexivity.
  - rewrite append_cons. cbn [includes]. rewrite IH. apply orb_true_r.
Qed.

Lemma import_of_node (st : State) (p : path) specifiers source :
  Tree.node p (body st) = Some (ImportDeclaration specifiers source) ->
  import_of p st = (Returned (specifiers, source), st).
Proof.
  intros Hnode. unfold import_of, node_of, bind, get. rewrite Hnode. reflexivity.
Qed.

Lemma inlineEnvFlags_throws (st : State) (p : path) specifiers source (e : exn) :
  Tree.node p (body st) = Some (ImportDeclaration specifiers source) ->
  generateFlagConstants specifiers (envFlags (this st)) source = Thrown e ->
  inlineEnvFlags p st = (Thrown e, st).
Proof.
  intros Hnode Hgen. unfold inlineEnvFlags, bind at 1.
  rewrite (import_of_node _ _ _ _ Hnode). unfold bind, get, lift.
  rewrite Hgen. reflexivity.
Qed.

Lemma inlineFeatureFlags_throws (st : State) (p : path) specifiers source features (e : exn) :
  Tree.node p (body st) = Some (ImportDeclaration specifiers source) ->
  selected_features source (featureFlags (this st)) = Some features ->
  generateFlagConstants specifiers (flags features) source = Thrown e ->
  inlineFeatureFlags p st = (Thrown e, st).
Proof.
  intros Hnode Hsel Hgen. unfold inlineFeatureFlags, bind at 1, get at 1.
  unfold selected_features in Hsel.
  induction (featureFlags (this st)) as [|f fs IH]; [discriminate|].
  cbn [inlineFeatureFlags_loop]. unfold bind at 1.
  rewrite (import_of_node _ _ _ _ Hnode). cbn in Hsel.
  destruct (String.eqb (featuresImport f) source) eqn:E.
  - injection Hsel as ->. unfold bind, lift. rewrite Hgen. reflexivity.
  - apply IH. exact Hsel.
Qed.

(** C2, on the code.  For [import { DEBUG as D } from '@ember/env-flags'] and
    the table [{ DEBUG: 1 }] the code declares [const DEBUG = 1]: the
    identifier is the imported name, not the local name [D] the module
    goes on to use. *)
Theorem flag_constant_binds_imported_name :
  generateFlagConstants [ {| spec_imported := "DEBUG"; spec_local := "D" |} ]
    {[ "DEBUG" := 1%Z ]} "@ember/env-flags"
  = Returned [ VariableDeclaration "const" (Identifier "DEBUG") (NumericLiteral 1) ]
  /\ generateFlagConstants [ {| spec_imported := "DEBUG"; spec_local := "D" |} ]
       {[ "DEBUG" := 1%Z ]} "@ember/env-flags"
     <> Returned [ VariableDeclaration "const" (Identifier "D") (NumericLiteral 1) ].
Proof. split; [vm_compute; reflexivity|vm_compute; discriminate]. Qed.

(** C3, on the code.  For [import { toString } from '@ember/env-flags'] and
    the table [{ DEBUG: 1 }] the name [toString] is absent from the table,
    yet the lookup finds the member inherited from [Object.prototype], which
    is not [undefined]: the unknown-flag error is not thrown, and the call
    fails in the numeric-literal constructor with a TypeError that names
    neither the specifier nor the source.  The state is unchanged. *)
Theorem unknown_flag_inherited_name :
  let specifiers := [ {| spec_imported := "toString"; spec_local := "toString" |} ] in
  let st :=
    with_body [ (0, ImportDeclaration specifiers "@ember/env-flags") ]
      (Sample.state HelpersOff) in
  envFlags (this st) !! "toString" = None
  /\ (exists message,
        generateFlagConstants specifiers (envFlags (this st)) "@ember/env-flags"
        = Thrown (TypeError message)
        /\ inlineEnvFlags 0 st = (Thrown (TypeError message), st))
  /\ generateFlagConstants specifiers (envFlags (this st)) "@ember/env-flags"
     <> Thrown (Error (unsupported_flag "toString" "@ember/env-flags"))
  /\ inlineEnvFlags 0 st
     <> (Thrown (Error (unsupported_flag "toString" "@ember/env-flags")), st).
Proof.
  cbn zeta. split; [vm_compute; reflexivity|].
  split; [eexists; split; vm_compute; reflexivity|].
  split; vm_compute; discriminate.
Qed.

(** X24. When some specifier's imported name has no entry in the selected
    table, and no imported name is a member the table inherits from
    [Object.prototype], flag inlining throws an error whose message holds
    the missing name and the source module name, no declaration is returned,
    and the tree and the builder are as they were before the call: the
    import statement has not been replaced.  This holds for the environment
    table and for the table of the first feature set configured for the
    source module. *)
Theorem unknown_flag_aborts (st : State) (p : path) (specifiers : list ImportSpecifier)
    (source : string) (flagTable : gmap string Z) :
  Tree.node p (body st) = Some (ImportDeclaration specifiers source) ->
  Forall (fun s => spec_imported s ∉ object_prototype_members) specifiers ->
  Exists (fun s => flagTable !! spec_imported s = None) specifiers ->
  exists name,
    let message :=
      "Imported " +:+ name +:+ " from " +:+ source +:+ " which is not a supported flag." in
    name ∈ map spec_imported specifiers
    /\ flagTable !! name = None
    /\ includes name message = true
    /\ includes source message = true
    /\ generateFlagConstants specifiers flagTable source = Thrown (Error message)
    /\ (envFlags (this st) = flagTable ->
        inlineEnvFlags p st = (Thrown (Error message), st))
    /\ (forall features,
          selected_features source (featureFlags (this st)) = Some features ->
          flags features = flagTable ->
          inlineFeatureFlags p st = (Thrown (Error message), st)).
Proof.
  intros Hnode Hplain Hex.
  destruct (generateFlagConstants_unknown flagTable source specifiers Hplain Hex)
    as (s & Hin & Hnone & Hrun).
  exists (spec_imported s). cbn zeta.
  split; [apply list_elem_of_fmap; eauto|]. split; [exact Hnone|].
  split; [apply includes_append|]. split.
  - rewrite <- (append_assoc (spec_imported s)), <- (append_assoc "Imported ").
    apply includes_append.
  - split; [exact Hrun|]. split.
    + intros <-. eapply inlineEnvFlags_throws; eauto.
    + intros features Hsel <-. eapply inlineFeatureFlags_throws; eauto.
Qed.

Lemma unknown_flag_aborts_witness :
  inlineEnvFlags 4 (Sample.state HelpersOff)
  = (Thrown (Error "Imported TESTING from @ember/env-flags which is not a supported flag."),
     Sample.state HelpersOff).
Proof.
  destruct (unknown_flag_aborts (Sample.state HelpersOff) 4
              [ {| spec_imported := "DEBUG"; spec_local := "DEBUG" |};
                {| spec_imported := "TESTING"; spec_local := "TESTING" |} ]
              "@ember/env-flags" {[ "DEBUG" := 1%Z ]})
    as (name & Hin & Hnone & _ & _ & _ & Henv & _).
  - reflexivity.
  - apply (bool_decide_unpack _). vm_compute. reflexivity.
  - right. left. vm_compute. reflexivity.
  - cbn in Hin.
    apply elem_of_cons in Hin as [->|Hin]; [vm_compute in Hnone; discriminate|].
    apply elem_of_cons in Hin as [->|Hin]; [|inversion Hin].
    apply Henv. reflexivity.
Defined.

(** ** Deprecations *)

Lemma call_arguments_node (st : State) (p : path) callee args :
  Tree.node p (body st) = Some (ExpressionStatement (CallExpression callee args)) ->
  call_arguments p st = (Returned args, st).
Proof.
  intros Hnode. unfold call_arguments, node_of, bind, get. rewrite Hnode. reflexivity.
Qed.

Lemma remove_node (st : State) (p : path) :
  is_Some (Tree.node p (body st)) ->
  remove p st = (Returned tt, with_body (Tree.drop_node p (body st)) st).
Proof.
  intros [s Hs]. unfold remove, bind, get, put. rewrite Hs. reflexivity.
Qed.

Section MetaFacts.

Implicit Types (meta : Meta) (prop : expr * expr) (properties : list (expr * expr)).

Lemma meta_assign_other (name : string) meta prop :
  match node_name (fst prop) with
  | Some key => negb (String.eqb key name)
  | None => true
  end = true ->
  (name = "id" -> meta_id (meta_assign meta prop) = meta_id meta)
  /\ (name = "until" -> meta_until (meta_assign meta prop) = meta_until meta)
  /\ (name = "url" -> meta_url (meta_assign meta prop) = meta_url meta).
Proof.
  unfold meta_assign. destruct (node_name (fst prop)) as [key|]; [|auto].
  intros Hkey%negb_true_iff.
  repeat split; intros ->; rewrite ?Hkey;
    repeat (match goal with |- context [String.eqb key ?k] => destruct (String.eqb key k) end);
    reflexivity.
Qed.

Lemma fold_meta_lacks (name : string) properties meta :
  lacks_field name properties = true ->
  (name = "id" -> meta_id (fold_left meta_assign properties meta) = meta_id meta)
  /\ (name = "until" -> meta_until (fold_left meta_assign properties meta) = meta_until meta)
  /\ (name = "url" -> meta_url (fold_left meta_assign properties meta) = meta_url meta).
Proof.
  revert meta. induction properties as [|prop properties IH]; intros meta Hlacks.
  - auto.
  - cbn in Hlacks. apply andb_true_iff in Hlacks as [Hprop Hrest].
    destruct (IH (meta_assign meta prop) Hrest) as (Hid & Huntil & Hurl).
    destruct (meta_assign_other name meta prop Hprop) as (Hid' & Huntil' & Hurl').
    cbn [fold_left]. repeat split; intros Hname.
    + rewrite Hid, Hid'; auto.
    + rewrite Huntil, Huntil'; auto.
    + rewrite Hurl, Hurl'; auto.
Qed.

(** A field absent from the object literal keeps its initial [null]. *)
Lemma read_meta_lacks_id properties :
  lacks_field "id" properties = true -> meta_id (read_meta properties) = VNull.
Proof. intros H. apply (fold_meta_lacks "id" properties empty_meta H). reflexivity. Qed.

Lemma read_meta_lacks_until properties :
  lacks_field "until" properties = true -> meta_until (read_meta properties) = VNull.
Proof. intros H. apply (fold_meta_lacks "until" properties empty_meta H). reflexivity. Qed.


End MetaFacts.

Section DeprecateFacts.

Variable satisfies : string -> string -> Outcome bool.
Variables (st : State) (p : path) (callee message predicate : expr).
Variables (properties : list (expr * expr)) (rest : list expr).

Hypothesis call_site :
  Tree.node p (body st)
  = Some (ExpressionStatement
            (CallExpression callee
               (message :: predicate :: ObjectExpression properties :: rest))).

Lemma deprecate_without_id :
  truthy (meta_id (read_meta properties)) = false ->
  _deprecate satisfies p st = (Thrown (ReferenceError (requires_field "id")), st).
Proof.
  intros Hid. unfold _deprecate, bind at 1.
  rewrite (call_arguments_node _ _ _ _ call_site).
  rewrite Hid. reflexivity.
Qed.

Lemma deprecate_without_until :
  truthy (meta_id (read_meta properties)) = true -> truthy (meta_until (read_meta properties)) = false ->
  _deprecate satisfies p st = (Thrown (ReferenceError (requires_field "until")), st).
Proof.
  intros Hid Huntil. unfold _deprecate, bind at 1.
  rewrite (call_arguments_node _ _ _ _ call_site).
  rewrite Hid, Huntil. reflexivity.
Qed.

Lemma deprecate_expired :
  truthy (meta_id (read_meta properties)) = true -> truthy (meta_until (read_meta properties)) = true ->
  satisfies (packageVersion (this st)) (to_string (meta_until (read_meta properties))) = Returned true ->
  _deprecate satisfies p st = (Returned tt, with_body (Tree.drop_node p (body st)) st).
Proof.
  intros Hid Huntil Hsat. unfold _deprecate, bind at 1.
  rewrite (call_arguments_node _ _ _ _ call_site).
  rewrite Hid, Huntil. cbn [negb]. unfold bind at 1, get at 1.
  rewrite Hsat. apply remove_node. rewrite call_site. eauto.
Qed.

Lemma deprecate_registered :
  truthy (meta_id (read_meta properties)) = true -> truthy (meta_until (read_meta properties)) = true ->
  satisfies (packageVersion (this st)) (to_string (meta_until (read_meta properties))) = Returned false ->
  _deprecate satisfies p st
  = push_expression
      (p, _buildLogicalExpressions [predicate]
            (let deprecationMessage := _generateDeprecationMessage message (read_meta properties) in
             if externalizeHelpers (this st) then
               match has_namespace (helpers_global (helpers (this st))) with
               | Some ns => _createGlobalExternalHelper "deprecate" [deprecationMessage] ns
               | None => _createExternalHelper "deprecate" [deprecationMessage]
               end
             else _createConsoleAPI "warn" [deprecationMessage])) st.
Proof.
  intros Hid Huntil Hsat. unfold _deprecate, bind at 1.
  rewrite (call_arguments_node _ _ _ _ call_site).
  rewrite Hid, Huntil. cbn [negb]. unfold bind at 1, get at 1.
  rewrite Hsat. reflexivity.
Qed.

End DeprecateFacts.


(** C4. A deprecate call whose metadata passes validation and whose [until]
    range is satisfied by the package version is removed from the tree on
    the spot, whatever its message, predicate and the helper configuration;
    the other statements stay, and the builder is unchanged: no expansion is
    registered for the call. *)
Theorem expired_deprecation_removed (satisfies : string -> string -> Outcome bool)
    (st : State) (p : path) (callee message predicate : expr)
    (properties : list (expr * expr)) (rest : list expr) :
  Tree.node p (body st)
  = Some (ExpressionStatement
            (CallExpression callee
               (message :: predicate :: ObjectExpression properties :: rest))) ->
  truthy (meta_id (read_meta properties)) = true ->
  truthy (meta_until (read_meta properties)) = true ->
  satisfies (packageVersion (this st)) (to_string (meta_until (read_meta properties))) = Returned true ->
  exists st',
    _deprecate satisfies p st = (Returned tt, st')
    /\ Tree.node p (body st') = None
    /\ (forall q, q <> p -> Tree.node q (body st') = Tree.node q (body st))
    /\ this st' = this st
    /\ expressions (this st') = expressions (this st).
Proof.
  intros Hsite Hid Huntil Hsat.
  exists (with_body (Tree.drop_node p (body st)) st). split.
  - eapply deprecate_expired; eauto.
  - cbn. split; [apply node_drop_node_eq|]. split; [|split; reflexivity].
    intros q Hq. apply node_drop_node_ne. exact Hq.
Qed.

Lemma expired_deprecation_removed_witness :
  exists st',
    _deprecate Sample.expired 3 (Sample.state HelpersOff) = (Returned tt, st')
    /\ Tree.node 3 (body st') = None
    /\ expressions (this st') = [].
Proof.
  destruct (expired_deprecation_removed Sample.expired (Sample.state HelpersOff) 3
              (Identifier "deprecate") (StringLiteral "Foo is bad") (Identifier "isBad")
              Sample.foo_meta [])
    as (st' & Hrun & Hgone & _ & _ & Hexp); [reflexivity..|].
  exists st'. split; [exact Hrun|]. split; [exact Hgone|]. exact Hexp.
Defined.




(** C6, as stated, fails: for the metadata [{ id: FOO_ID }] the missing
    field is [until] and [id] is there, yet the error names [id]. *)
Lemma deprecation_error_names_present_id :
  let properties := [ (Identifier "id", Identifier "FOO_ID") ] in
  let site :=
    ExpressionStatement
      (CallExpression (Identifier "deprecate")
         [ StringLiteral "Foo is bad"; Identifier "isBad"; ObjectExpression properties ]) in
  let st := with_body [ (3, site) ] (Sample.state HelpersOff) in
  lacks_field "until" properties = true
  /\ lacks_field "id" properties = false
  /\ _deprecate Sample.not_expired 3 st
     = (Thrown (ReferenceError (requires_field "id")), st)
  /\ _deprecate Sample.not_expired 3 st
     <> (Thrown (ReferenceError (requires_field "until")), st).
Proof.
  cbn zeta. split; [reflexivity|]. split; [reflexivity|]. split; [reflexivity|].
  vm_compute. discriminate.
Qed.

(** C6, as the code has it.  A deprecate call whose metadata object has no
    [id] property or no [until] property throws a ReferenceError that names
    [id] when the [id] value read is falsy (in particular when [id] is
    absent) and names [until], the missing field, when the [id] value is
    truthy.  The state at the throw is the state before the call: nothing
    was removed, registered or replaced. *)
Theorem deprecation_requires_id_and_until (satisfies : string -> string -> Outcome bool)
    (st : State) (p : path) (callee message predicate : expr)
    (properties : list (expr * expr)) (rest : list expr) :
  Tree.node p (body st)
  = Some (ExpressionStatement
            (CallExpression callee
               (message :: predicate :: ObjectExpression properties :: rest))) ->
  lacks_field "id" properties = true \/ lacks_field "until" properties = true ->
  exists field,
    _deprecate satisfies p st = (Thrown (ReferenceError (requires_field field)), st)
    /\ includes field (requires_field field) = true
    /\ ((field = "id" /\ truthy (meta_id (read_meta properties)) = false)
        \/ (field = "until" /\ lacks_field "until" properties = true
            /\ truthy (meta_id (read_meta properties)) = true))
    /\ (lacks_field "id" properties = true -> field = "id").
Proof.
  intros Hsite Hlacks.
  assert (Hnames : forall field, includes field (requires_field field) = true).
  { intros field. unfold requires_field. rewrite <- append_assoc. apply includes_append. }
  destruct (truthy (meta_id (read_meta properties))) eqn:Hid.
  - assert (Hno_id : lacks_field "id" properties = true -> False).
    { intros H. rewrite (read_meta_lacks_id _ H) in Hid. discriminate. }
    destruct Hlacks as [H|Huntil]; [destruct (Hno_id H)|].
    exists "until". split.
    + eapply deprecate_without_until; eauto.
      rewrite (read_meta_lacks_until _ Huntil). reflexivity.
    + split; [apply Hnames|]. split; [right; auto|]. intros H. destruct (Hno_id H).
  - exists "id". split; [eapply deprecate_without_id; eauto|].
    split; [apply Hnames|]. split; [left; auto|]. reflexivity.
Qed.

Lemma deprecation_requires_id_and_until_witness :
  let site :=
    ExpressionStatement
      (CallExpression (Identifier "deprecate")
         [ StringLiteral "Foo is bad"; Identifier "isBad";
           ObjectExpression [ (Identifier "id", StringLiteral "foo-dep") ] ]) in
  let st := with_body [ (3, site) ] (Sample.state HelpersOff) in
  _deprecate Sample.expired 3 st
  = (Thrown (ReferenceError (requires_field "until")), st).
Proof.
  intros site st.
  destruct (deprecation_requires_id_and_until Sample.expired st 3
              (Identifier "deprecate") (StringLiteral "Foo is bad") (Identifier "isBad")
              [ (Identifier "id", StringLiteral "foo-dep") ] [])
    as (field & Hrun & _ & [[_ Hid]|[-> _]] & _).
  - reflexivity.
  - right. reflexivity.
  - discriminate Hid.
  - exact Hrun.
Defined.

(** ** Assertions and warnings *)

Lemma push_expression_run (st : State) (entry : path * Closure) :
  push_expression entry st
  = (Returned tt,
     with_this (set_expressions (expressions (this st) ++ [entry])%list (this st)) st).
Proof. reflexivity. Qed.

Lemma expand_registered (g : string) (st : State) :
  (forall e, e ∈ expressions (this st) -> is_Some (Tree.node (fst e) (body st))) ->
  exists st',
    _expand g st = (Returned tt, st')
    /\ body st' = expand_body g (expressions (this st)) (body st).
Proof.
  intros Hsites.
  destruct (expand_loop_body g (length (expressions (this st))) 0 st) as (st' & Hrun & Hbody).
  - lia.
  - intros e He. rewrite drop_0 in He. auto.
  - rewrite drop_0 in Hbody. exists st'. split; [exact Hrun|exact Hbody].
Qed.

(** A builder that registers one expansion for a call site, followed by
    finalization, leaves the site holding its parenthesized chain. *)
Lemma register_then_expand (g : string) (st : State) (builder : M unit)
    (p : path) (c : Closure) :
  builder st = push_expression (p, c) st ->
  is_Some (Tree.node p (body st)) ->
  NoDup (map fst (expressions (this st))) ->
  p ∉ map fst (expressions (this st)) ->
  (forall e, e ∈ expressions (this st) -> is_Some (Tree.node (fst e) (body st))) ->
  exists st',
    (builder ;; _expand g) st = (Returned tt, st')
    /\ Tree.node p (body st') = Some (expanded g (p, c)).
Proof.
  intros Hrun Hp Hnd Hnew Hsites.
  set (st1 := with_this (set_expressions (expressions (this st) ++ [(p, c)])%list (this st)) st).
  destruct (expand_registered g st1) as (st' & Hexp & Hbody).
  - intros e He. cbn in He. apply elem_of_app in He as [He|He]; cbn.
    + apply Hsites. exact He.
    + apply list_elem_of_singleton in He as ->. exact Hp.
  - exists st'. split.
    + unfold bind. rewrite Hrun, push_expression_run. exact Hexp.
    + rewrite Hbody. cbn [this st1 with_this set_expressions expressions body].
      apply (node_expand_body g _ _ (p, c)).
      * rewrite map_app. apply NoDup_app. split; [exact Hnd|]. split.
        -- intros q Hq Hq'. apply list_elem_of_singleton in Hq' as ->. contradiction.
        -- apply NoDup_singleton.
      * apply elem_of_app. right. left.
      * exact Hp.
Qed.

Lemma filter_sublist {A} (f : A -> bool) (l : list A) : List.filter f l `sublist_of` l.
Proof.
  induction l as [|a l IH]; cbn; [constructor|].
  destruct (f a); [apply sublist_skip|apply sublist_cons]; exact IH.
Qed.

(** C7. An assert call registers a terminal call on the assert helper that
    carries the original arguments unchanged, with the arguments that are
    identifiers, in argument order, as leading conditions; finalization with
    guard name [g] leaves the call site as the parenthesized chain
    [(g && identifiers... && helper(arguments))].  Without externalization
    the helper is [console.assert]. *)
Theorem assert_expansion (g : string) (st : State) (p : path) (callee : expr)
    (args : list expr) :
  Tree.node p (body st) = Some (ExpressionStatement (CallExpression callee args)) ->
  NoDup (map fst (expressions (this st))) ->
  p ∉ map fst (expressions (this st)) ->
  (forall e, e ∈ expressions (this st) -> is_Some (Tree.node (fst e) (body st))) ->
  exists helper leading,
    let terminal := CallExpression helper args in
    _assert p st = push_expression (p, _buildLogicalExpressions leading terminal) st
    /\ leading = List.filter isIdentifier args
    /\ leading `sublist_of` args
    /\ (forall a, a ∈ leading <-> a ∈ args /\ exists name, a = Identifier name)
    /\ (externalizeHelpers (this st) = false ->
        helper = MemberExpression (Identifier "console") (Identifier "assert"))
    /\ exists st',
        (_assert p ;; _expand g) st = (Returned tt, st')
        /\ Tree.node p (body st')
           = Some (ExpressionStatement
                     (ParenthesizedExpression (guard_chain g leading terminal))).
Proof.
  intros Hsite Hnd Hnew Hsites.
  assert (Hrun : exists helper,
             _assert p st
             = push_expression
                 (p, _buildLogicalExpressions (List.filter isIdentifier args)
                       (CallExpression helper args)) st
             /\ (externalizeHelpers (this st) = false ->
                 helper = MemberExpression (Identifier "console") (Identifier "assert"))).
  { unfold _assert, bind at 1. rewrite (call_arguments_node _ _ _ _ Hsite).
    unfold bind at 1, get at 1. unfold _getIdentifiers.
    destruct (externalizeHelpers (this st)).
    - destruct (has_namespace (helpers_global (helpers (this st)))) as [ns|];
        eexists; (split; [reflexivity|discriminate]).
    - eexists; split; reflexivity. }
  destruct Hrun as (helper & Hrun & Hconsole).
  exists helper, (List.filter isIdentifier args). cbn zeta.
  split; [exact Hrun|]. split; [reflexivity|]. split; [apply filter_sublist|]. split.
  - intros a. rewrite !list_elem_of_In, filter_In.
    split; intros [Hin Hid]; (split; [exact Hin|]).
    + destruct a; try discriminate. eauto.
    + destruct Hid as [name ->]. reflexivity.
  - split; [exact Hconsole|].
    apply (register_then_expand g st (_assert p) p _ Hrun); auto.
Qed.

Lemma assert_expansion_witness :
  exists st',
    (_assert 1 ;; _expand "_DEBUG") (Sample.state HelpersOff) = (Returned tt, st')
    /\ Tree.node 1 (body st')
       = Some (ExpressionStatement
                 (ParenthesizedExpression
                    (LogicalExpression "&&"
                       (LogicalExpression "&&" (Identifier "_DEBUG") (Identifier "x"))
                       (CallExpression
                          (MemberExpression (Identifier "console") (Identifier "assert"))
                          [Identifier "x"; StringLiteral "message"])))).
Proof.
  destruct (assert_expansion "_DEBUG" (Sample.state HelpersOff) 1 (Identifier "assert")
              [Identifier "x"; StringLiteral "message"])
    as (helper & leading & _ & -> & _ & _ & Hconsole & st' & Hrun & Hnode).
  - reflexivity.
  - constructor.
  - intros H. inversion H.
  - intros e He. inversion He.
  - exists st'. split; [exact Hrun|].
    rewrite Hnode, (Hconsole eq_refl). reflexivity.
Defined.

(** C8. A warn call registers a terminal call on the warn helper that
    carries the original arguments unchanged, with no leading condition:
    finalization with guard name [g] leaves the call site as
    [(g && helper(arguments))].  With externalization enabled and a global
    namespace, the helper is the namespace's [warn] member. *)
Theorem warn_expansion (g : string) (st : State) (p : path) (callee : expr)
    (args : list expr) :
  Tree.node p (body st) = Some (ExpressionStatement (CallExpression callee args)) ->
  NoDup (map fst (expressions (this st))) ->
  p ∉ map fst (expressions (this st)) ->
  (forall e, e ∈ expressions (this st) -> is_Some (Tree.node (fst e) (body st))) ->
  exists helper,
    let terminal := CallExpression helper args in
    _warn p st = push_expression (p, _buildLogicalExpressions [] terminal) st
    /\ (forall ns,
          externalizeHelpers (this st) = true ->
          helpers_global (helpers (this st)) = Some ns -> ns <> EmptyString ->
          helper = MemberExpression (Identifier ns) (Identifier "warn"))
    /\ exists st',
        (_warn p ;; _expand g) st = (Returned tt, st')
        /\ Tree.node p (body st')
           = Some (ExpressionStatement
                     (ParenthesizedExpression
                        (LogicalExpression "&&" (Identifier g) terminal))).
Proof.
  intros Hsite Hnd Hnew Hsites.
  assert (Hrun : exists helper,
             _warn p st
             = push_expression (p, _buildLogicalExpressions [] (CallExpression helper args)) st
             /\ (forall ns,
                   externalizeHelpers (this st) = true ->
                   helpers_global (helpers (this st)) = Some ns -> ns <> EmptyString ->
                   helper = MemberExpression (Identifier ns) (Identifier "warn"))).
  { unfold _warn, bind at 1. rewrite (call_arguments_node _ _ _ _ Hsite).
    unfold bind at 1, get at 1.
    destruct (externalizeHelpers (this st)).
    - destruct (helpers_global (helpers (this st))) as [name|].
      + destruct name as [|ch name].
        * eexists; split; [reflexivity|]. intros ns _ [= <-] Hne. congruence.
        * eexists; split; [reflexivity|]. intros ns _ [= <-] _. reflexivity.
      + eexists; split; [reflexivity|]. intros ns _ [=].
    - eexists; split; [reflexivity|]. intros ns [=]. }
  destruct Hrun as (helper & Hrun & Hglobal).
  exists helper. cbn zeta. split; [exact Hrun|]. split; [exact Hglobal|].
  apply (register_then_expand g st (_warn p) p _ Hrun); auto.
Qed.

Lemma warn_expansion_witness :
  exists st',
    (_warn 2 ;; _expand "_DEBUG") (Sample.state (HelpersObject (Some "Ember") VUndefined))
    = (Returned tt, st')
    /\ Tree.node 2 (body st')
       = Some (ExpressionStatement
                 (ParenthesizedExpression
                    (LogicalExpression "&&" (Identifier "_DEBUG")
                       (CallExpression
                          (MemberExpression (Identifier "Ember") (Identifier "warn"))
                          [StringLiteral "message"])))).
Proof.
  destruct (warn_expansion "_DEBUG" (Sample.state (HelpersObject (Some "Ember") VUndefined))
              2 (Identifier "warn") [StringLiteral "message"])
    as (helper & _ & Hglobal & st' & Hrun & Hnode).
  - reflexivity.
  - constructor.
  - intros H. inversion H.
  - intros e He. inversion He.
  - exists st'. split; [exact Hrun|].
    rewrite Hnode, (Hglobal "Ember" eq_refl eq_refl); [reflexivity|discriminate].
Defined.

(** ** Injecting the guard *)

Lemma bind_assoc {A B C} (m : M A) (f : A -> M B) (k : B -> M C) (st : State) :
  bind (bind m f) k st = bind m (fun a => bind (f a) k) st.
Proof. unfold bind. destruct (m st) as [[a|e] st']; reflexivity. Qed.

Lemma expand_nothing (binding : string) (st : State) :
  expressions (this st) = [] -> _expand binding st = (Returned tt, st).
Proof. intros H. unfold _expand, bind, get. rewrite H. reflexivity. Qed.

Lemma hasDebugModule_iff (debugBinding : option Binding) :
  _hasDebugModule debugBinding = true
  <-> exists b, debugBinding = Some b
                /\ binding_kind b = "module"
                /\ binding_source b = Some "@ember/env-flags".
Proof.
  split.
  - destruct debugBinding as [[p source|k p]|]; cbn; try discriminate.
    intros H%String.eqb_eq. subst source. eexists. repeat split.
  - intros ([p source|k p] & -> & Hkind & Hsource); cbn in *.
    + injection Hsource as ->. reflexivity.
    + discriminate.
Qed.

(** C10. [injectFlags] takes the reuse path exactly when the scope binds
    [DEBUG] with kind ['module'] from an import declaration whose source is
    ['@ember/env-flags']: it then expands with the name [DEBUG] and inlines
    that import declaration.  With no [DEBUG] binding, a local one, or one
    imported from another module, it takes the synthesize path: the guard is
    the identifier the scope generates from [DEBUG]; when no expansion is
    registered nothing is inserted, and when at least one is registered a
    [const] declaration of that identifier, initialized to the environment
    table's [DEBUG] value, is put at the top of the body before the
    expansions are made. *)
Theorem guard_binding_reuse_or_synthesize (scope : Scope) (st : State) :
  let reuse :=
    exists b, getBinding scope "DEBUG" = Some b
              /\ binding_kind b = "module"
              /\ binding_source b = Some "@ember/env-flags" in
  let name := generateUidIdentifier scope "DEBUG" in
  (_hasDebugModule (getBinding scope DEBUG) = true <-> reuse)
  /\ (forall b, getBinding scope "DEBUG" = Some b ->
        binding_kind b = "module" -> binding_source b = Some "@ember/env-flags" ->
        injectFlags scope st
        = (_expand "DEBUG" ;; inlineEnvFlags (binding_parentPath b) ;; _cleanImports scope) st)
  /\ (~ reuse ->
        (expressions (this st) = [] ->
         injectFlags scope st = _cleanImports scope st)
        /\ (expressions (this st) <> [] ->
            forall flag, envFlags (this st) !! "DEBUG" = Some flag ->
            injectFlags scope st
            = (_expand name ;; _cleanImports scope)
                (with_body
                   ((Tree.fresh (body st),
                     VariableDeclaration "const" (Identifier name) (NumericLiteral flag))
                    :: body st) st)))
  /\ (getBinding scope "DEBUG" = None -> ~ reuse)
  /\ (forall k p, getBinding scope "DEBUG" = Some (LocalBinding k p) -> ~ reuse)
  /\ (forall p source, getBinding scope "DEBUG" = Some (ImportBinding p source) ->
        source <> "@ember/env-flags" -> ~ reuse).
Proof.
  cbn zeta. split; [apply hasDebugModule_iff|]. split; [|split].
  - intros b Hb Hkind Hsource.
    assert (Hreuse : _hasDebugModule (getBinding scope DEBUG) = true).
    { apply hasDebugModule_iff. eauto. }
    unfold injectFlags. rewrite Hreuse. cbn [negb].
    change (getBinding scope DEBUG) with (getBinding scope "DEBUG"). rewrite Hb.
    apply bind_assoc.
  - intros Hnot.
    assert (Hsynth : _hasDebugModule (getBinding scope DEBUG) = false).
    { destruct (_hasDebugModule (getBinding scope DEBUG)) eqn:E; [|reflexivity].
      apply hasDebugModule_iff in E. contradiction. }
    unfold injectFlags. rewrite Hsynth. cbn [negb]. split.
    + intros Hnone. unfold bind at 1. unfold bind at 1, get at 1.
      rewrite Hnone. cbn [length Nat.ltb Nat.leb]. unfold bind at 1, ret at 1.
      rewrite (expand_nothing _ _ Hnone). reflexivity.
    + intros Hsome flag Hflag. unfold bind at 1. unfold bind at 1, get at 1.
      destruct (expressions (this st)) as [|e es] eqn:Hes; [congruence|].
      cbn [length Nat.ltb Nat.leb]. unfold bind at 1, _injectDebug, bind at 1, get at 1.
      unfold DEBUG. rewrite Hflag. reflexivity.
  - split; [|split].
    + intros Hnone (b & Hb & _). congruence.
    + intros k p Hlocal (b & Hb & Hkind & Hsource).
      rewrite Hlocal in Hb. injection Hb as <-. discriminate.
    + intros p source Himport Hne (b & Hb & _ & Hsource).
      rewrite Himport in Hb. injection Hb as <-. cbn in Hsource. congruence.
Qed.

Lemma guard_binding_reuse_or_synthesize_witness :
  (exists st',
      injectFlags Sample.scope Sample.registered = (Returned tt, st')
      /\ head (body st')
         = Some (5, VariableDeclaration "const" (Identifier "_DEBUG") (NumericLiteral 1)))
  /\ (exists st',
        injectFlags Sample.scope_with_debug Sample.registered_all_flags = (Returned tt, st')
        /\ Tree.node 4 (body st') = None
        /\ Tree.node 5 (body st')
           = Some (VariableDeclaration "const" (Identifier "DEBUG") (NumericLiteral 1))
        /\ Tree.node 2 (body st')
           = Some (ExpressionStatement
                     (ParenthesizedExpression
                        (LogicalExpression "&&" (Identifier "DEBUG")
                           (_createConsoleAPI "warn" [StringLiteral "message"]))))).
Proof.
  split.
  - destruct (guard_binding_reuse_or_synthesize Sample.scope Sample.registered)
      as (_ & _ & Hsynth & Hnone & _).
    destruct (Hsynth (Hnone eq_refl)) as [_ Hinsert].
    rewrite (Hinsert ltac:(discriminate) 1%Z ltac:(reflexivity)).
    eexists. split; reflexivity.
  - destruct (guard_binding_reuse_or_synthesize Sample.scope_with_debug
                Sample.registered_all_flags) as (_ & Hreuse & _).
    rewrite (Hreuse (ImportBinding 4 "@ember/env-flags") eq_refl eq_refl eq_refl).
    eexists. repeat split; reflexivity.
Defined.

(** ** Further facts about the builders *)

(** Only identifiers become leading conditions: a member access among the
    arguments of an assert call is forwarded but not tested first. *)
Example assert_member_argument :
  isLiteral (MemberExpression (Identifier "a") (Identifier "b")) = false
  /\ _getIdentifiers [ MemberExpression (Identifier "a") (Identifier "b");
                       Identifier "x"; StringLiteral "message" ]
     = [ Identifier "x" ].
Proof. split; reflexivity. Qed.

(** Where the local name of every specifier is its imported name, the
    declarations bind the local names. *)
Lemma generateFlagConstants_unaliased (flagTable : gmap string Z) (source : string)
    (specifiers : list ImportSpecifier) :
  Forall (fun s => is_Some (flagTable !! spec_imported s)) specifiers ->
  Forall (fun s => spec_local s = spec_imported s) specifiers ->
  exists decls,
    generateFlagConstants specifiers flagTable source = Returned decls
    /\ Forall2 (fun s d => exists flag,
                    flagTable !! spec_imported s = Some flag
                    /\ d = VariableDeclaration "const" (Identifier (spec_local s))
                             (NumericLiteral flag))
         specifiers decls.
Proof.
  intros Hknown Hsame.
  destruct (generateFlagConstants_known flagTable source specifiers Hknown)
    as (decls & Hrun & Hall).
  exists decls. split; [exact Hrun|].
  clear Hrun Hknown. induction Hall as [|s d specifiers decls (flag & Hflag & ->) _ IH].
  - constructor.
  - apply Forall_cons in Hsame as [Hs Hsame]. constructor; [|apply IH; exact Hsame].
    exists flag. rewrite Hs. auto.
Qed.

(** ** Flag inlining, beyond the failure case *)

Lemma splice_other (p : path) (nodes l : Program) :
  p ∉ map fst l -> Tree.splice p nodes l = l.
Proof.
  unfold Tree.splice. induction l as [|[k s] l IH]; intros Hp; [reflexivity|].
  cbn in Hp. apply not_elem_of_cons in Hp as [Hne Hp].
  cbn. destruct (Nat.eqb k p) eqn:E.
  - apply Nat.eqb_eq in E. congruence.
  - cbn. f_equal. apply IH. exact Hp.
Qed.

Lemma splice_app (p : path) (nodes l1 l2 : Program) :
  Tree.splice p nodes (l1 ++ l2)%list
  = (Tree.splice p nodes l1 ++ Tree.splice p nodes l2)%list.
Proof. apply flat_map_app. Qed.

Lemma splice_here (p : path) (s : stmt) (nodes l : Program) :
  Tree.splice p nodes ((p, s) :: l) = (nodes ++ Tree.splice p nodes l)%list.
Proof. unfold Tree.splice. cbn. rewrite Nat.eqb_refl. reflexivity. Qed.

Lemma splice_in_place (p : path) (s : stmt) (nodes before after : Program) :
  p ∉ map fst before -> p ∉ map fst after ->
  Tree.splice p nodes (before ++ (p, s) :: after)%list = (before ++ nodes ++ after)%list.
Proof.
  intros Hb Ha. rewrite splice_app, splice_here.
  rewrite !splice_other by assumption. reflexivity.
Qed.

Lemma node_in_place (p : path) (s : stmt) (before after : Program) :
  p ∉ map fst before -> Tree.node p (before ++ (p, s) :: after)%list = Some s.
Proof.
  induction before as [|[k s0] before IH]; intros Hp; cbn.
  - rewrite Nat.eqb_refl. reflexivity.
  - cbn in Hp. apply not_elem_of_cons in Hp as [Hne Hp].
    destruct (Nat.eqb k p) eqn:E; [apply Nat.eqb_eq in E; congruence|]. auto.
Qed.

Lemma replaceWithMultiple_in_place (st : State) (p : path) (s : stmt)
    (nodes : list stmt) (before after : Program) :
  body st = (before ++ (p, s) :: after)%list ->
  p ∉ map fst before -> p ∉ map fst after ->
  replaceWithMultiple p nodes st
  = (Returned tt,
     with_body (before ++ Tree.number (Tree.fresh (body st)) nodes ++ after)%list st).
Proof.
  intros Hbody Hb Ha.
  set (fresh := Tree.number (Tree.fresh (body st)) nodes).
  assert (Hnode : Tree.node p (body st) = Some s).
  { rewrite Hbody. apply node_in_place. exact Hb. }
  assert (Hsplice : Tree.splice p fresh (body st) = (before ++ fresh ++ after)%list).
  { rewrite Hbody. apply splice_in_place; assumption. }
  unfold replaceWithMultiple, bind, get, put. rewrite Hnode.
  fold fresh. rewrite Hsplice. reflexivity.
Qed.

(** X1. With every imported name in the table, [generateFlagConstants]
    returns as many declarations as there are specifiers, and the declaration
    at each index is [const <imported name> = <the table's value>] for the
    specifier at that index. *)
Theorem flag_constants_for_known_names (flagTable : gmap string Z) (source : string)
    (specifiers : list ImportSpecifier) :
  Forall (fun s => is_Some (flagTable !! spec_imported s)) specifiers ->
  exists decls,
    generateFlagConstants specifiers flagTable source = Returned decls
    /\ length decls = length specifiers
    /\ forall i s, specifiers !! i = Some s ->
         exists flag,
           flagTable !! spec_imported s = Some flag
           /\ decls !! i
              = Some (VariableDeclaration "const" (Identifier (spec_imported s))
                        (NumericLiteral flag)).
Proof.
  intros Hknown.
  destruct (generateFlagConstants_known flagTable source specifiers Hknown)
    as (decls & Hrun & Hall).
  exists decls. split; [exact Hrun|]. split.
  - symmetry. eapply Forall2_length. exact Hall.
  - intros i s Hi.
    destruct (Forall2_lookup_l _ _ _ _ _ Hall Hi) as (d & Hd & flag & Hflag & ->).
    eauto.
Qed.

Lemma flag_constants_for_known_names_witness :
  generateFlagConstants
    [ {| spec_imported := "FEATURE_A"; spec_local := "FEATURE_A" |};
      {| spec_imported := "FEATURE_B"; spec_local := "B" |} ]
    {[ "FEATURE_A" := 0%Z; "FEATURE_B" := 1%Z ]} "features"
  = Returned
      [ VariableDeclaration "const" (Identifier "FEATURE_A") (NumericLiteral 0);
        VariableDeclaration "const" (Identifier "FEATURE_B") (NumericLiteral 1) ].
Proof.
  destruct (flag_constants_for_known_names
              {[ "FEATURE_A" := 0%Z; "FEATURE_B" := 1%Z ]} "features"
              [ {| spec_imported := "FEATURE_A"; spec_local := "FEATURE_A" |};
                {| spec_imported := "FEATURE_B"; spec_local := "B" |} ])
    as (decls & Hrun & Hlen & Hat).
  - repeat constructor; vm_compute; eauto.
  - rewrite Hrun. f_equal.
    destruct (Hat 0 _ eq_refl) as (f0 & Hf0 & H0).
    destruct (Hat 1 _ eq_refl) as (f1 & Hf1 & H1).
    vm_compute in Hf0, Hf1. injection Hf0 as <-. injection Hf1 as <-.
    destruct decls as [|d0 [|d1 [|d2 decls]]]; try discriminate Hlen.
    cbn in H0, H1. injection H0 as ->. injection H1 as ->. reflexivity.
Defined.

(** X2. [generateFlagConstants] throws for the first specifier whose
    imported name is not an own key of the table, whatever specifiers follow
    it: the unknown-flag error naming that specifier and the source when the
    lookup finds nothing, and the numeric-literal constructor's TypeError
    when the name is a member inherited from [Object.prototype]. *)
Theorem flag_constants_first_unknown (flagTable : gmap string Z) (source : string)
    (before after : list ImportSpecifier) (s : ImportSpecifier) :
  Forall (fun s => is_Some (flagTable !! spec_imported s)) before ->
  flagTable !! spec_imported s = None ->
  (spec_imported s ∉ object_prototype_members ->
   generateFlagConstants (before ++ s :: after) flagTable source
   = Thrown (Error (unsupported_flag (spec_imported s) source)))
  /\ (spec_imported s ∈ object_prototype_members ->
      exists message,
        generateFlagConstants (before ++ s :: after) flagTable source
        = Thrown (TypeError message)).
Proof.
  intros Hknown Hnone.
  assert (Hstep : forall e,
             generateFlagConstants (s :: after) flagTable source = Thrown e ->
             generateFlagConstants (before ++ s :: after) flagTable source = Thrown e).
  { intros e He. induction Hknown as [|s0 before [flag Hflag] _ IH]; [exact He|].
    cbn. rewrite (property_own _ _ _ Hflag). cbn in IH. rewrite IH. reflexivity. }
  split.
  - intros Hplain. apply Hstep. cbn.
    rewrite (property_undefined _ _ Hnone Hplain). reflexivity.
  - intros Hinherited. eexists. apply Hstep. cbn.
    rewrite (property_inherited _ _ Hnone Hinherited). reflexivity.
Qed.

Lemma flag_constants_first_unknown_witness :
  generateFlagConstants
    [ {| spec_imported := "DEBUG"; spec_local := "DEBUG" |};
      {| spec_imported := "TESTING"; spec_local := "TESTING" |};
      {| spec_imported := "OTHER"; spec_local := "OTHER" |} ]
    {[ "DEBUG" := 1%Z ]} "@ember/env-flags"
  = Thrown (Error "Imported TESTING from @ember/env-flags which is not a supported flag.").
Proof.
  destruct (flag_constants_first_unknown {[ "DEBUG" := 1%Z ]} "@ember/env-flags"
              [ {| spec_imported := "DEBUG"; spec_local := "DEBUG" |} ]
              [ {| spec_imported := "OTHER"; spec_local := "OTHER" |} ]
              {| spec_imported := "TESTING"; spec_local := "TESTING" |})
    as [Hplain _].
  - repeat constructor. vm_compute. eauto.
  - vm_compute. reflexivity.
  - apply Hplain. apply (bool_decide_unpack _). vm_compute. reflexivity.
Defined.

(** X3. When every imported flag is in the environment table,
    [inlineEnvFlags] puts the declarations where the import declaration
    stood, in the order of the specifiers: the statements before and after
    keep their places, and the builder is unchanged.  An import with no
    specifier just disappears. *)
Theorem inlineEnvFlags_in_place (st : State) (p : path)
    (specifiers : list ImportSpecifier) (source : string)
    (before after : Program) (decls : list stmt) :
  body st = (before ++ (p, ImportDeclaration specifiers source) :: after)%list ->
  p ∉ map fst before -> p ∉ map fst after ->
  generateFlagConstants specifiers (envFlags (this st)) source = Returned decls ->
  exists st',
    inlineEnvFlags p st = (Returned tt, st')
    /\ map snd (body st') = (map snd before ++ decls ++ map snd after)%list
    /\ this st' = this st
    /\ (specifiers = [] -> body st' = (before ++ after)%list).
Proof.
  intros Hbody Hb Ha Hgen.
  exists (with_body (before ++ Tree.number (Tree.fresh (body st)) decls ++ after)%list st).
  split.
  - unfold inlineEnvFlags, bind at 1.
    rewrite (import_of_node st p specifiers source).
    + unfold bind at 1, get at 1. unfold bind at 1, lift at 1. rewrite Hgen.
      eapply replaceWithMultiple_in_place; eauto.
    + rewrite Hbody. apply node_in_place. exact Hb.
  - cbn. split; [|split; [reflexivity|]].
    + rewrite !map_app. f_equal. f_equal.
      generalize (Tree.fresh (body st)). clear.
      induction decls as [|d decls IH]; intros k; cbn; [reflexivity|].
      f_equal. apply IH.
    + intros ->. cbn in Hgen. injection Hgen as <-. reflexivity.
Qed.

Lemma inlineEnvFlags_in_place_witness :
  exists st',
    inlineEnvFlags 4 Sample.registered_all_flags = (Returned tt, st')
    /\ map snd (body st')
       = (map snd (take 4 Sample.program)
            ++ [ VariableDeclaration "const" (Identifier "DEBUG") (NumericLiteral 1);
                 VariableDeclaration "const" (Identifier "TESTING") (NumericLiteral 0) ])%list.
Proof.
  destruct (inlineEnvFlags_in_place Sample.registered_all_flags 4
              [ {| spec_imported := "DEBUG"; spec_local := "DEBUG" |};
                {| spec_imported := "TESTING"; spec_local := "TESTING" |} ]
              "@ember/env-flags" (take 4 Sample.program) []
              [ VariableDeclaration "const" (Identifier "DEBUG") (NumericLiteral 1);
                VariableDeclaration "const" (Identifier "TESTING") (NumericLiteral 0) ])
    as (st' & Hrun & Hbody & _).
  - reflexivity.
  - apply (bool_decide_unpack _). vm_compute. reflexivity.
  - apply (bool_decide_unpack _). vm_compute. reflexivity.
  - vm_compute. reflexivity.
  - exists st'. split; [exact Hrun|]. rewrite Hbody. reflexivity.
Defined.

Lemma inlineFeatureFlags_loop_unmatched (st : State) (p : path)
    (specifiers : list ImportSpecifier) (source : string) (fs : list Features) :
  Tree.node p (body st) = Some (ImportDeclaration specifiers source) ->
  selected_features source fs = None ->
  inlineFeatureFlags_loop p fs st = (Returned tt, st).
Proof.
  intros Hnode. unfold selected_features.
  induction fs as [|f fs IH]; intros Hsel; [reflexivity|].
  cbn [inlineFeatureFlags_loop]. unfold bind at 1.
  rewrite (import_of_node _ _ _ _ Hnode). cbn in Hsel.
  destruct (String.eqb (featuresImport f) source); [discriminate|].
  apply IH. exact Hsel.
Qed.

(** X4. [inlineFeatureFlags] leaves the builder and the tree as they are
    when no configured feature set has the import's source as its module
    name, also when the imported names are in no table at all; with no
    feature set configured it does not even look at the path. *)
Theorem inlineFeatureFlags_unmatched (st : State) (p : path) :
  (featureFlags (this st) = [] -> inlineFeatureFlags p st = (Returned tt, st))
  /\ (forall specifiers source,
        Tree.node p (body st) = Some (ImportDeclaration specifiers source) ->
        selected_features source (featureFlags (this st)) = None ->
        inlineFeatureFlags p st = (Returned tt, st)).
Proof.
  split.
  - intros Hnone. unfold inlineFeatureFlags, bind, get. rewrite Hnone. reflexivity.
  - intros specifiers source Hnode Hsel. unfold inlineFeatureFlags, bind at 1, get at 1.
    eapply inlineFeatureFlags_loop_unmatched; eauto.
Qed.

Lemma inlineFeatureFlags_unmatched_witness :
  inlineFeatureFlags 4 (Sample.state HelpersOff) = (Returned tt, Sample.state HelpersOff).
Proof.
  destruct (inlineFeatureFlags_unmatched (Sample.state HelpersOff) 4) as [_ H].
  apply (H [ {| spec_imported := "DEBUG"; spec_local := "DEBUG" |};
             {| spec_imported := "TESTING"; spec_local := "TESTING" |} ]
           "@ember/env-flags"); reflexivity.
Defined.

(** X5. [inlineFeatureFlags] uses the table of the first configured feature
    set whose module name is the import's source, and no later one: when
    that table has every imported name, the declarations built from it take
    the import declaration's place, and the builder is unchanged. *)
Theorem inlineFeatureFlags_first_match (st : State) (p : path)
    (specifiers : list ImportSpecifier) (source : string)
    (before after : Program) (features : Features) (decls : list stmt) :
  body st = (before ++ (p, ImportDeclaration specifiers source) :: after)%list ->
  p ∉ map fst before -> p ∉ map fst after ->
  selected_features source (featureFlags (this st)) = Some features ->
  generateFlagConstants specifiers (flags features) source = Returned decls ->
  exists st',
    inlineFeatureFlags p st = (Returned tt, st')
    /\ map snd (body st') = (map snd before ++ decls ++ map snd after)%list
    /\ this st' = this st.
Proof.
  intros Hbody Hb Ha Hsel Hgen.
  assert (Hnode : Tree.node p (body st) = Some (ImportDeclaration specifiers source)).
  { rewrite Hbody. apply node_in_place. exact Hb. }
  exists (with_body (before ++ Tree.number (Tree.fresh (body st)) decls ++ after)%list st).
  split.
  - unfold inlineFeatureFlags, bind at 1, get at 1. unfold selected_features in Hsel.
    induction (featureFlags (this st)) as [|f fs IH]; [discriminate|].
    cbn [inlineFeatureFlags_loop]. unfold bind at 1.
    rewrite (import_of_node _ _ _ _ Hnode). cbn in Hsel.
    destruct (String.eqb (featuresImport f) source).
    + injection Hsel as ->. unfold bind at 1, lift at 1. rewrite Hgen.
      eapply replaceWithMultiple_in_place; eauto.
    + apply IH. exact Hsel.
  - cbn. split; [|reflexivity].
    rewrite !map_app. f_equal. f_equal.
    generalize (Tree.fresh (body st)). clear.
    induction decls as [|d decls IH]; intros k; cbn; [reflexivity|].
    f_equal. apply IH.
Qed.

Lemma inlineFeatureFlags_first_match_witness :
  exists st',
    inlineFeatureFlags 2 (Aliased.state HelpersOff) = (Returned tt, st')
    /\ map snd (body st')
       = (map snd (take 2 Aliased.program)
            ++ [ VariableDeclaration "const" (Identifier "FEATURE_A") (NumericLiteral 0);
                 VariableDeclaration "const" (Identifier "FEATURE_B") (NumericLiteral 1) ]
            ++ map snd (drop 3 Aliased.program))%list.
Proof.
  destruct (inlineFeatureFlags_first_match (Aliased.state HelpersOff) 2
              [ {| spec_imported := "FEATURE_A"; spec_local := "FEATURE_A" |};
                {| spec_imported := "FEATURE_B"; spec_local := "FEATURE_B" |} ]
              "features" (take 2 Aliased.program) (drop 3 Aliased.program)
              {| featuresImport := "features";
                 flags := {[ "FEATURE_A" := 0%Z; "FEATURE_B" := 1%Z ]} |}
              [ VariableDeclaration "const" (Identifier "FEATURE_A") (NumericLiteral 0);
                VariableDeclaration "const" (Identifier "FEATURE_B") (NumericLiteral 1) ])
    as (st' & Hrun & Hbody & _).
  - reflexivity.
  - apply (bool_decide_unpack _). vm_compute. reflexivity.
  - apply (bool_decide_unpack _). vm_compute. reflexivity.
  - reflexivity.
  - vm_compute. reflexivity.
  - exists st'. split; [exact Hrun|]. rewrite Hbody. reflexivity.
Defined.

(** ** Collecting bindings and dispatching calls *)

Lemma zip_fmap_both {A B C} (f : A -> B) (g : A -> C) (l : list A) :
  zip (map f l) (map g l) = map (fun x => (f x, g x)) l.
Proof. induction l as [|x l IH]; cbn; [reflexivity|]. f_equal. exact IH. Qed.

(** X6. [collectSpecifiers] keeps the two binding arrays parallel: if they
    had the same length they still have, the pairs already recorded keep
    their positions, and the pair (local name, imported name) of each
    specifier is added after them in specifier order.  It marks the debug
    tools as imported and touches neither the tree nor the registered
    expansions. *)
Theorem collectSpecifiers_parallel (st : State) (specifiers : list ImportSpecifier) :
  length (importedBindings (this st)) = length (localBindings (this st)) ->
  exists st',
    collectSpecifiers specifiers st = (Returned tt, st')
    /\ length (importedBindings (this st')) = length (localBindings (this st'))
    /\ zip (localBindings (this st')) (importedBindings (this st'))
       = (zip (localBindings (this st)) (importedBindings (this st))
            ++ map (fun s => (spec_local s, spec_imported s)) specifiers)%list
    /\ importedDebugTools (this st') = true
    /\ body st' = body st
    /\ expressions (this st') = expressions (this st).
Proof.
  intros Hlen. eexists. split; [reflexivity|].
  cbn [this body with_this with_body set_bindings localBindings importedBindings
       importedDebugTools expressions].
  split; [rewrite !length_app, !length_map, Hlen; reflexivity|].
  split; [|auto].
  rewrite (zip_with_app pair (localBindings (this st)) (map spec_local specifiers)
             (importedBindings (this st)) (map spec_imported specifiers) (eq_sym Hlen)).
  f_equal. apply zip_fmap_both.
Qed.

Lemma collectSpecifiers_parallel_witness :
  exists st',
    collectSpecifiers Aliased.tools (Aliased.state HelpersOff) = (Returned tt, st')
    /\ zip (localBindings (this st')) (importedBindings (this st'))
       = [ ("check", "assert"); ("warn", "warn") ].
Proof.
  destruct (collectSpecifiers_parallel (Aliased.state HelpersOff) Aliased.tools eq_refl)
    as (st' & Hrun & _ & Hzip & _).
  exists st'. split; [exact Hrun|]. rewrite Hzip. reflexivity.
Defined.

Section DispatchFacts.

Variable satisfies : string -> string -> Outcome bool.
Variable other_member : string -> option (path -> M unit).

Lemma indexOf_None (l : list string) (x : string) : x ∉ l -> indexOf l x = None.
Proof.
  induction l as [|y l IH]; intros Hx; [reflexivity|].
  apply not_elem_of_cons in Hx as [Hne Hx]. cbn.
  destruct (String.eqb y x) eqn:E; [apply String.eqb_eq in E; congruence|].
  rewrite IH by exact Hx. reflexivity.
Qed.

(** The position [indexOf] finds for a specifier's local name holds that
    specifier's imported name. *)
Lemma indexOf_collected (specifiers : list ImportSpecifier) (s : ImportSpecifier) :
  NoDup (map spec_local specifiers) -> s ∈ specifiers ->
  exists i,
    indexOf (map spec_local specifiers) (spec_local s) = Some i
    /\ map spec_imported specifiers !! i = Some (spec_imported s).
Proof.
  induction specifiers as [|s0 specifiers IH]; intros Hnd Hin; [inversion Hin|].
  cbn in Hnd. apply NoDup_cons in Hnd as [Hfresh Hnd].
  apply elem_of_cons in Hin as [->|Hin].
  - exists 0. cbn. rewrite String.eqb_refl. split; reflexivity.
  - destruct (IH Hnd Hin) as (i & Hi & Himp). exists (S i). cbn.
    destruct (String.eqb (spec_local s0) (spec_local s)) eqn:E.
    + apply String.eqb_eq in E. exfalso. apply Hfresh. rewrite E.
      apply list_elem_of_fmap. eauto.
    + rewrite Hi. split; [reflexivity|exact Himp].
Qed.

(** X7. [buildExpression] does nothing, and throws nothing, for a statement
    that is not a call, for a call whose callee is not an identifier, and for
    a call of an identifier that is not among the collected local names. *)
Theorem buildExpression_ignores (st : State) (p : path) (s : stmt) :
  Tree.node p (body st) = Some s ->
  (forall callee args name,
      s = ExpressionStatement (CallExpression callee args) ->
      node_name callee = Some name -> name ∉ localBindings (this st)) ->
  buildExpression satisfies other_member p st = (Returned tt, st).
Proof.
  intros Hnode Hunbound.
  unfold buildExpression, bind at 1, node_of, bind at 1, get at 1.
  rewrite Hnode. unfold ret at 1, bind at 1, get at 1.
  destruct s as [e| |]; try reflexivity.
  destruct e; try reflexivity.
  destruct (node_name e) as [name|] eqn:Hname; [|reflexivity].
  rewrite (indexOf_None _ _ (Hunbound _ _ _ eq_refl Hname)). reflexivity.
Qed.

(** X8. A helper imported under an alias is recognised by its local name and
    handled as the macro it was imported as: after [collectSpecifiers] on a
    builder with no bindings yet, [buildExpression] on a call of a
    specifier's local name runs [_assert], [_warn] or [_deprecate] according
    to that specifier's imported name. *)
Theorem collected_alias_dispatch (st : State) (specifiers : list ImportSpecifier)
    (s : ImportSpecifier) (p : path) (args : list expr) :
  localBindings (this st) = [] ->
  importedBindings (this st) = [] ->
  NoDup (map spec_local specifiers) ->
  s ∈ specifiers ->
  Tree.node p (body st)
  = Some (ExpressionStatement (CallExpression (Identifier (spec_local s)) args)) ->
  (spec_imported s = "assert" ->
   (collectSpecifiers specifiers ;; buildExpression satisfies other_member p) st
   = (collectSpecifiers specifiers ;; _assert p) st)
  /\ (spec_imported s = "warn" ->
      (collectSpecifiers specifiers ;; buildExpression satisfies other_member p) st
      = (collectSpecifiers specifiers ;; _warn p) st)
  /\ (spec_imported s = "deprecate" ->
      (collectSpecifiers specifiers ;; buildExpression satisfies other_member p) st
      = (collectSpecifiers specifiers ;; _deprecate satisfies p) st).
Proof.
  intros Hlocal Himported Hnd Hin Hnode.
  destruct (indexOf_collected specifiers s Hnd Hin) as (i & Hi & Himp).
  assert (Hrun : forall imported, spec_imported s = imported ->
            (collectSpecifiers specifiers ;; buildExpression satisfies other_member p) st
            = match member satisfies other_member ("_" +:+ imported) with
              | Some method => (collectSpecifiers specifiers ;; method p) st
              | None =>
                  (collectSpecifiers specifiers ;;
                   throw (TypeError "this[...] is not a function")) st
              end).
  { intros imported <-. unfold bind at 1, collectSpecifiers at 1, bind at 1, get at 1, put.
    rewrite Hlocal, Himported. cbn [app].
    unfold buildExpression, bind at 1, node_of, bind at 1, get at 1.
    cbn [body with_this]. rewrite Hnode. unfold ret at 1, bind at 1, get at 1.
    cbn [node_name this with_this localBindings importedBindings set_bindings].
    rewrite Hi, Himp.
    destruct (member satisfies other_member ("_" +:+ spec_imported s));
      unfold bind at 1, collectSpecifiers at 1, bind at 1, get at 1, put;
      rewrite Hlocal, Himported; reflexivity. }
  repeat split; intros Himp'; rewrite (Hrun _ Himp'); reflexivity.
Qed.

End DispatchFacts.

Lemma buildExpression_ignores_witness :
  buildExpression Sample.expired Aliased.no_member 3 (Aliased.state HelpersOff)
  = (Returned tt, Aliased.state HelpersOff).
Proof.
  apply (buildExpression_ignores Sample.expired Aliased.no_member
           (Aliased.state HelpersOff) 3
           (ExpressionStatement (CallExpression (Identifier "other") [Identifier "ok"]))).
  - reflexivity.
  - intros callee args name _ _ H. inversion H.
Defined.

Lemma collected_alias_dispatch_witness :
  exists st',
    (collectSpecifiers Aliased.tools ;;
     buildExpression Sample.expired Aliased.no_member 1 ;;
     _expand "_DEBUG") (Aliased.state HelpersOff) = (Returned tt, st')
    /\ Tree.node 1 (body st')
       = Some (ExpressionStatement
                 (ParenthesizedExpression
                    (LogicalExpression "&&"
                       (LogicalExpression "&&" (Identifier "_DEBUG") (Identifier "ok"))
                       (_createConsoleAPI "assert" [Identifier "ok"; StringLiteral "message"])))).
Proof.
  destruct (collected_alias_dispatch Sample.expired Aliased.no_member
              (Aliased.state HelpersOff) Aliased.tools
              {| spec_imported := "assert"; spec_local := "check" |} 1
              [Identifier "ok"; StringLiteral "message"])
    as (Hassert & _).
  - reflexivity.
  - reflexivity.
  - apply (bool_decide_unpack _). vm_compute. reflexivity.
  - left.
  - reflexivity.
  - rewrite <- bind_assoc. unfold bind at 1. rewrite (Hassert eq_refl).
    eexists. split; reflexivity.
Defined.

(** ** Import cleanup *)

Lemma keys_set_node (p : path) (s : stmt) (b : Program) :
  map fst (Tree.set_node p s b) = map fst b.
Proof.
  unfold Tree.set_node. induction b as [|[k s0] b IH]; cbn; [reflexivity|].
  rewrite IH. destruct (Nat.eqb k p); reflexivity.
Qed.

Lemma set_source_run (st : State) (p : path) specifiers source (module : string) :
  Tree.node p (body st) = Some (ImportDeclaration specifiers source) ->
  set_source p module st
  = (Returned tt,
     with_body (Tree.set_node p (ImportDeclaration specifiers module) (body st)) st).
Proof.
  intros Hnode. unfold set_source, bind at 1.
  rewrite (import_of_node _ _ _ _ Hnode). reflexivity.
Qed.

(** X9. Unless helpers are externalized to a module, [_cleanImports] removes
    the import declaration that binds the first collected local name, and
    only that statement: this is so with externalization off, with
    [externalizeHelpers: true], and with a helpers object that has no
    [module] entry.  The builder is unchanged. *)
Theorem cleanImports_removes (scope : Scope) (st : State)
    (first : string) (rest : list string) (b : Binding) :
  localBindings (this st) = first :: rest ->
  getBinding scope first = Some b ->
  is_Some (Tree.node (binding_parentPath b) (body st)) ->
  externalizeHelpers (this st) && truthy (helpers_module (helpers (this st))) = false ->
  exists st',
    _cleanImports scope st = (Returned tt, st')
    /\ Tree.node (binding_parentPath b) (body st') = None
    /\ (forall q, q <> binding_parentPath b -> Tree.node q (body st') = Tree.node q (body st))
    /\ this st' = this st.
Proof.
  intros Hlocal Hbinding Hnode Hoff.
  exists (with_body (Tree.drop_node (binding_parentPath b) (body st)) st). split.
  - unfold _cleanImports, bind at 1, get at 1. rewrite Hlocal, Hbinding, Hoff.
    apply remove_node. exact Hnode.
  - cbn. split; [apply node_drop_node_eq|]. split; [|reflexivity].
    intros q Hq. apply node_drop_node_ne. exact Hq.
Qed.

Lemma cleanImports_removes_witness :
  exists st',
    (collectSpecifiers Aliased.tools ;; _cleanImports Aliased.scope)
      (Aliased.state HelpersTrue) = (Returned tt, st')
    /\ Tree.node 0 (body st') = None
    /\ Tree.node 1 (body st') = Tree.node 1 Aliased.program.
Proof.
  destruct (cleanImports_removes Aliased.scope
              (snd (collectSpecifiers Aliased.tools (Aliased.state HelpersTrue)))
              "check" ["warn"] (ImportBinding 0 "debug-tools"))
    as (st' & Hrun & Hgone & Hother & _).
  - reflexivity.
  - reflexivity.
  - cbn. eauto.
  - reflexivity.
  - exists st'. split; [exact Hrun|]. split; [exact Hgone|].
    apply Hother. discriminate.
Defined.

(** X10. With helpers externalized to a module given as a non-empty string,
    [_cleanImports] keeps the import declaration that binds the first
    collected local name, with its specifiers and at its place, and makes
    that module its source; no other statement and nothing of the builder
    changes. *)
Theorem cleanImports_rewrites (scope : Scope) (st : State)
    (first : string) (rest : list string) (b : Binding)
    (specifiers : list ImportSpecifier) (source module : string) :
  localBindings (this st) = first :: rest ->
  getBinding scope first = Some b ->
  Tree.node (binding_parentPath b) (body st) = Some (ImportDeclaration specifiers source) ->
  externalizeHelpers (this st) = true ->
  helpers_module (helpers (this st)) = VString module ->
  module <> EmptyString ->
  exists st',
    _cleanImports scope st = (Returned tt, st')
    /\ Tree.node (binding_parentPath b) (body st')
       = Some (ImportDeclaration specifiers module)
    /\ (forall q, q <> binding_parentPath b -> Tree.node q (body st') = Tree.node q (body st))
    /\ map fst (body st') = map fst (body st)
    /\ this st' = this st.
Proof.
  intros Hlocal Hbinding Hnode Hext Hmodule Hne.
  exists (with_body (Tree.set_node (binding_parentPath b)
                       (ImportDeclaration specifiers module) (body st)) st).
  split.
  - unfold _cleanImports, bind at 1, get at 1.
    rewrite Hlocal, Hbinding, Hext, Hmodule.
    destruct module as [|ch module]; [congruence|]. cbn [truthy is_empty negb andb].
    eapply set_source_run. exact Hnode.
  - cbn. split; [apply node_set_node_eq; rewrite Hnode; eauto|].
    split; [|split; [apply keys_set_node|reflexivity]].
    intros q Hq. apply node_set_node_ne. exact Hq.
Qed.

Lemma cleanImports_rewrites_witness :
  exists st',
    (collectSpecifiers Aliased.tools ;; _cleanImports Aliased.scope)
      (Aliased.state (HelpersObject None (VString "my-debug"))) = (Returned tt, st')
    /\ Tree.node 0 (body st') = Some (ImportDeclaration Aliased.tools "my-debug").
Proof.
  destruct (cleanImports_rewrites Aliased.scope
              (snd (collectSpecifiers Aliased.tools
                      (Aliased.state (HelpersObject None (VString "my-debug")))))
              "check" ["warn"] (ImportBinding 0 "debug-tools")
              Aliased.tools "debug-tools" "my-debug")
    as (st' & Hrun & Hnode & _); try reflexivity.
  - discriminate.
  - exists st'. split; [exact Hrun|exact Hnode].
Defined.

(** X11. Whatever its outcome, [_cleanImports] never changes the builder and
    never touches a statement other than the declaration of the first
    collected local name; with no collected name it does nothing at all, and
    with a [module] option that is truthy but not a string it neither removes
    nor rewrites the import. *)
Theorem cleanImports_touches_one_import (scope : Scope) (st : State) :
  this (snd (_cleanImports scope st)) = this st
  /\ (localBindings (this st) = [] -> _cleanImports scope st = (Returned tt, st))
  /\ (forall first rest b,
        localBindings (this st) = first :: rest ->
        getBinding scope first = Some b ->
        (forall q, q <> binding_parentPath b ->
                   Tree.node q (body (snd (_cleanImports scope st))) = Tree.node q (body st))
        /\ (externalizeHelpers (this st) = true ->
            truthy (helpers_module (helpers (this st))) = true ->
            (forall module, helpers_module (helpers (this st)) <> VString module) ->
            _cleanImports scope st = (Returned tt, st))).
Proof.
  unfold _cleanImports, bind at 1, get at 1. unfold bind at 1, get at 1.
  unfold bind at 1, get at 1. unfold bind at 1, get at 1.
  destruct (localBindings (this st)) as [|first rest] eqn:Hlocal.
  { split; [reflexivity|]. split; [reflexivity|]. intros ? ? ? [=]. }
  assert (Hcase : forall b, getBinding scope first = Some b ->
            let r := (if externalizeHelpers (this st)
                         && truthy (helpers_module (helpers (this st)))
                      then match helpers_module (helpers (this st)) with
                           | VString module => set_source (binding_parentPath b) module
                           | _ => ret tt
                           end
                      else remove (binding_parentPath b)) st in
            this (snd r) = this st
            /\ forall q, q <> binding_parentPath b ->
                         Tree.node q (body (snd r)) = Tree.node q (body st)).
  { intros b Hb. cbn zeta.
    destruct (externalizeHelpers (this st) && truthy (helpers_module (helpers (this st)))).
    - destruct (helpers_module (helpers (this st))) as [| | | |module]; try (split; reflexivity).
      unfold set_source, bind, import_of, node_of, bind, get, put.
      destruct (Tree.node (binding_parentPath b) (body st)) as [[| |specifiers source]|];
        try (split; reflexivity).
      cbn. split; [reflexivity|]. intros q Hq. apply node_set_node_ne. exact Hq.
    - unfold remove, bind, get, put.
      destruct (Tree.node (binding_parentPath b) (body st)); [|split; reflexivity].
      cbn. split; [reflexivity|]. intros q Hq. apply node_drop_node_ne. exact Hq. }
  destruct (getBinding scope first) as [b|] eqn:Hb.
  - destruct (Hcase b eq_refl) as [Hthis Hother].
    split; [exact Hthis|]. split; [discriminate|].
    intros first' rest' b' [= <- <-] Hb'. rewrite Hb in Hb'. injection Hb' as <-.
    split; [exact Hother|].
    intros Hext Htruthy Hnot. rewrite Hext, Htruthy. cbn [andb].
    destruct (helpers_module (helpers (this st))) as [| | | |module]; try reflexivity.
    destruct (Hnot module eq_refl).
  - split; [reflexivity|]. split; [discriminate|].
    intros first' rest' b' [= <- <-] Hb'. congruence.
Qed.

Lemma cleanImports_touches_one_import_witness :
  (collectSpecifiers Aliased.tools ;; _cleanImports Aliased.scope)
    (Aliased.state (HelpersObject None (VBool true)))
  = collectSpecifiers Aliased.tools (Aliased.state (HelpersObject None (VBool true))).
Proof.
  destruct (cleanImports_touches_one_import Aliased.scope
              (snd (collectSpecifiers Aliased.tools
                      (Aliased.state (HelpersObject None (VBool true))))))
    as (_ & _ & Hfirst).
  destruct (Hfirst "check" ["warn"] (ImportBinding 0 "debug-tools") eq_refl eq_refl)
    as [_ Hkeep].
  unfold bind at 1. cbn [collectSpecifiers]. 
  change (collectSpecifiers Aliased.tools (Aliased.state (HelpersObject None (VBool true))))
    with (Returned tt, snd (collectSpecifiers Aliased.tools
                              (Aliased.state (HelpersObject None (VBool true))))).
  cbv iota beta. apply Hkeep; [reflexivity|reflexivity|discriminate].
Defined.

(** ** Finalization, beyond one successful pass *)

Lemma keys_insert_entry (es : list (path * Closure)) (i : nat) (p : path) (c c' : Closure) :
  es !! i = Some (p, c) -> map fst (<[i := (p, c')]> es) = map fst es.
Proof.
  revert i. induction es as [|e es IH]; intros [|i] Hi; try discriminate.
  - cbn in Hi. injection Hi as ->. reflexivity.
  - cbn. f_equal. apply IH. exact Hi.
Qed.

Lemma expand_loop_step (g : string) (n i : nat) (st : State) (p : path) (c : Closure) :
  expressions (this st) !! i = Some (p, c) ->
  let st1 := with_this (set_expressions (<[i := called g (p, c)]> (expressions (this st)))
                          (this st)) st in
  expand_loop g i (S n) st
  = match Tree.node p (body st) with
    | Some _ =>
        expand_loop g (S i) n
          (with_body (Tree.set_node p (expanded g (p, c)) (body st)) st1)
    | None => (Thrown (Error "You can't replace this node, we've already removed it"), st1)
    end.
Proof.
  intros Hi. cbn zeta. cbn [expand_loop]. unfold bind at 1, get at 1.
  rewrite Hi. unfold invoke. cbn iota.
  unfold bind at 1, store_expression, bind at 1, get at 1, put.
  rewrite logical_loop_invoke.
  unfold bind at 1, lift at 1. unfold bind at 1, lift at 1.
  cbn [parenthesizedExpression].
  unfold bind at 1, replaceWith, bind at 1, get at 1. cbn [body with_body with_this].
  destruct (Tree.node p (body st)); reflexivity.
Qed.

Lemma expand_loop_keeps (g : string) (n i : nat) (st : State) :
  let st' := snd (expand_loop g i n st) in
  map fst (body st') = map fst (body st)
  /\ map fst (expressions (this st')) = map fst (expressions (this st))
  /\ configuration (this st') = configuration (this st).
Proof.
  revert i st. induction n as [|n IH]; intros i st; cbn zeta.
  - repeat split; reflexivity.
  - destruct (expressions (this st) !! i) as [[p c]|] eqn:Hi.
    + rewrite (expand_loop_step g n i st p c Hi).
      destruct (Tree.node p (body st)).
      * match goal with |- context [expand_loop g (S i) n ?s] =>
          destruct (IH (S i) s) as (Hb & He & Hc) end.
        rewrite Hb, He, Hc. cbn. rewrite keys_set_node.
        unfold called. cbn [fst]. rewrite (keys_insert_entry _ _ _ _ _ Hi).
        repeat split; reflexivity.
      * cbn. unfold called. cbn [fst]. rewrite (keys_insert_entry _ _ _ _ _ Hi).
        repeat split; reflexivity.
    + assert (Hstop : expand_loop g i (S n) st = (Returned tt, st)).
      { cbn [expand_loop]. unfold bind, get. rewrite Hi. reflexivity. }
      rewrite Hstop. repeat split; reflexivity.
Qed.

(** X12. Whatever its outcome, [_expand] adds, removes and reorders no
    statement, keeps every registered call site in the registry in its
    order (the registry is not emptied), and changes nothing else of the
    builder. *)
Theorem expand_keeps_statements_and_registry (g : string) (st : State) :
  let st' := snd (_expand g st) in
  map fst (body st') = map fst (body st)
  /\ map fst (expressions (this st')) = map fst (expressions (this st))
  /\ configuration (this st') = configuration (this st).
Proof.
  unfold _expand, bind, get. apply expand_loop_keeps.
Qed.

Lemma expand_loop_full (g : string) (n i : nat) (st : State) :
  i + n = length (expressions (this st)) ->
  (forall e, e ∈ drop i (expressions (this st)) ->
             is_Some (Tree.node (fst e) (body st))) ->
  exists st',
    expand_loop g i n st = (Returned tt, st')
    /\ body st' = expand_body g (drop i (expressions (this st))) (body st)
    /\ expressions (this st')
       = (take i (expressions (this st))
            ++ map (called g) (drop i (expressions (this st))))%list
    /\ configuration (this st') = configuration (this st).
Proof.
  revert i st. induction n as [|n IH]; intros i st Hlen Hsites.
  - exists st. rewrite drop_ge, take_ge by lia. cbn. rewrite app_nil_r.
    repeat split.
  - destruct (lookup_lt_is_Some_2 (expressions (this st)) i) as [[p c] Hi]; [lia|].
    pose proof (drop_S _ _ _ Hi) as Hdrop.
    destruct (Hsites (p, c)) as [s0 Hs0]; [rewrite Hdrop; left|].
    rewrite (expand_loop_step g n i st p c Hi). cbn [fst] in Hs0. rewrite Hs0.
    match goal with |- context [expand_loop g (S i) n ?s] =>
      destruct (IH (S i) s) as (st' & Hrun & Hbody & Hexp & Hconf) end.
    + cbn. rewrite length_insert. lia.
    + intros e He. cbn in He. rewrite drop_insert_lt in He by lia.
      cbn. apply node_set_node_is_Some. apply Hsites.
      rewrite Hdrop. right. exact He.
    + exists st'. split; [exact Hrun|]. split; [|split].
      * rewrite Hbody. cbn. rewrite drop_insert_lt by lia. rewrite Hdrop. reflexivity.
      * rewrite Hexp. cbn [this with_this with_body expressions set_expressions].
        rewrite drop_insert_lt by lia.
        rewrite (take_S_r _ _ (called g (p, c))).
        -- rewrite take_insert_ge by lia. rewrite Hdrop. cbn [map].
           rewrite <- app_assoc. reflexivity.
        -- apply list_lookup_insert_eq. lia.
      * rewrite Hconf. reflexivity.
Qed.

Lemma expand_full (g : string) (st : State) :
  (forall e, e ∈ expressions (this st) -> is_Some (Tree.node (fst e) (body st))) ->
  exists st',
    _expand g st = (Returned tt, st')
    /\ body st' = expand_body g (expressions (this st)) (body st)
    /\ expressions (this st') = map (called g) (expressions (this st))
    /\ configuration (this st') = configuration (this st).
Proof.
  intros Hsites.
  destruct (expand_loop_full g (length (expressions (this st))) 0 st)
    as (st' & Hrun & Hbody & Hexp & Hconf).
  - lia.
  - intros e He. rewrite drop_0 in He. auto.
  - rewrite drop_0 in Hbody, Hexp. rewrite take_0 in Hexp.
    exists st'. repeat split; assumption.
Qed.

Lemma node_expand_body_is_Some (g : string) (es : list (path * Closure))
    (b : Program) (p : path) :
  is_Some (Tree.node p b) -> is_Some (Tree.node p (expand_body g es b)).
Proof.
  revert b. induction es as [|e es IH]; intros b Hp; [exact Hp|].
  cbn. apply IH. apply node_set_node_is_Some. exact Hp.
Qed.

(** X13. Finalizing twice compounds: after [_expand g1] and then
    [_expand g2] a registered call site holds the chain that starts with
    [g2], then [g1], then the leading conditions and the terminal call, and
    then the terminal call once more, because the first pass left its guard
    and its call in each closure's array. *)
Theorem expand_twice_compounds (g1 g2 : string) (st : State) :
  NoDup (map fst (expressions (this st))) ->
  (forall e, e ∈ expressions (this st) -> is_Some (Tree.node (fst e) (body st))) ->
  exists st',
    (_expand g1 ;; _expand g2) st = (Returned tt, st')
    /\ forall p c, (p, c) ∈ expressions (this st) ->
         Tree.node p (body st')
         = Some (ExpressionStatement
                   (ParenthesizedExpression
                      (guard_chain g2
                         (Identifier g1 :: identifiers c ++ [callExpression c])%list
                         (callExpression c)))).
Proof.
  intros Hnd Hsites.
  destruct (expand_full g1 st Hsites) as (st1 & Hrun1 & Hbody1 & Hexp1 & _).
  assert (Hkeys : forall es : list (path * Closure),
             map fst (map (called g1) es) = map fst es).
  { induction es as [|e es IH]; cbn; [reflexivity|]. f_equal. exact IH. }
  destruct (expand_full g2 st1) as (st2 & Hrun2 & Hbody2 & _).
  - intros e He. rewrite Hexp1 in He.
    apply list_elem_of_fmap in He as (e0 & -> & He0).
    rewrite Hbody1. cbn [called fst]. apply node_expand_body_is_Some. auto.
  - exists st2. split.
    + unfold bind. rewrite Hrun1. exact Hrun2.
    + intros p c Hin. rewrite Hbody2, Hexp1.
      apply (node_expand_body g2 _ _ (called g1 (p, c))).
      * rewrite Hkeys. exact Hnd.
      * apply list_elem_of_fmap. eauto.
      * rewrite Hbody1. cbn [called fst]. apply node_expand_body_is_Some.
        apply (Hsites (p, c) Hin).
Qed.

Lemma expand_twice_compounds_witness :
  exists st',
    (_expand "A" ;; _expand "B") Sample.registered = (Returned tt, st')
    /\ Tree.node 2 (body st')
       = Some (ExpressionStatement
                 (ParenthesizedExpression
                    (LogicalExpression "&&"
                       (LogicalExpression "&&"
                          (LogicalExpression "&&" (Identifier "B") (Identifier "A"))
                          (_createConsoleAPI "warn" [StringLiteral "message"]))
                       (_createConsoleAPI "warn" [StringLiteral "message"])))).
Proof.
  destruct (expand_twice_compounds "A" "B" Sample.registered) as (st' & Hrun & Hsite).
  - apply (bool_decide_unpack _). vm_compute. reflexivity.
  - intros e He. cbn in He.
    repeat (apply elem_of_cons in He as [->|He]); cbn; eauto. inversion He.
  - exists st'. split; [exact Hrun|].
    apply (Hsite 2 (_buildLogicalExpressions []
                      (_createConsoleAPI "warn" [StringLiteral "message"]))).
    cbn. right. left.
Defined.

(** ** Deprecation metadata *)

(** X14. What [_deprecate] does with a call that has three arguments and an
    object literal as metadata: a falsy [id] value gives the [id] error; a
    truthy [id] with a falsy [until] value gives the [until] error; with
    both truthy the answer of [satisfies] is asked for, and an exception it
    throws is passed on.  The call returns exactly when both values are
    truthy and [satisfies] returns, and every throw leaves the state as it
    was.  A value present but empty, zero, false or not a literal is
    rejected like a missing one. *)
Theorem deprecate_validation (satisfies : string -> string -> Outcome bool)
    (st : State) (p : path) (callee message predicate : expr)
    (properties : list (expr * expr)) (rest : list expr) :
  Tree.node p (body st)
  = Some (ExpressionStatement
            (CallExpression callee
               (message :: predicate :: ObjectExpression properties :: rest))) ->
  let meta := read_meta properties in
  let result := _deprecate satisfies p st in
  let answer := satisfies (packageVersion (this st)) (to_string (meta_until meta)) in
  (truthy (meta_id meta) = false ->
   result = (Thrown (ReferenceError (requires_field "id")), st))
  /\ (truthy (meta_id meta) = true -> truthy (meta_until meta) = false ->
      result = (Thrown (ReferenceError (requires_field "until")), st))
  /\ (truthy (meta_id meta) = true -> truthy (meta_until meta) = true ->
      forall e, answer = Thrown e -> result = (Thrown e, st))
  /\ ((exists st', result = (Returned tt, st'))
      <-> truthy (meta_id meta) = true /\ truthy (meta_until meta) = true
          /\ exists expired, answer = Returned expired)
  /\ (forall e st', result = (Thrown e, st') -> st' = st).
Proof.
  intros Hsite meta result answer. subst meta result answer.
  assert (Hthrow : truthy (meta_id (read_meta properties)) = true ->
                   truthy (meta_until (read_meta properties)) = true ->
                   forall e,
                     satisfies (packageVersion (this st))
                       (to_string (meta_until (read_meta properties))) = Thrown e ->
                     _deprecate satisfies p st = (Thrown e, st)).
  { intros Hid Huntil e He. unfold _deprecate, bind at 1.
    rewrite (call_arguments_node _ _ _ _ Hsite). rewrite Hid, Huntil. cbn [negb].
    unfold bind at 1, get at 1. unfold bind at 1, lift at 1. rewrite He. reflexivity. }
  destruct (truthy (meta_id (read_meta properties))) eqn:Hid.
  - destruct (truthy (meta_until (read_meta properties))) eqn:Huntil.
    + destruct (satisfies (packageVersion (this st))
                  (to_string (meta_until (read_meta properties)))) as [expired|e] eqn:Hsat.
      * assert (Hret : exists st', _deprecate satisfies p st = (Returned tt, st')).
        { destruct expired.
          - eexists. eapply deprecate_expired; eauto.
          - eexists. erewrite deprecate_registered by eauto. apply push_expression_run. }
        destruct Hret as [st' Hrun]. rewrite Hrun.
        split; [discriminate|]. split; [discriminate|]. split; [discriminate|].
        split; [split; eauto|]. discriminate.
      * rewrite (Hthrow eq_refl eq_refl e eq_refl).
        split; [discriminate|]. split; [discriminate|].
        split; [intros _ _ e' [= <-]; reflexivity|].
        split; [split; [intros [st' [=]]|intros (_ & _ & expired & [=])]|].
        intros e' st' [= _ <-]. reflexivity.
    + rewrite (deprecate_without_until satisfies st p callee message predicate
                 properties rest Hsite Hid Huntil).
      split; [discriminate|]. split; [reflexivity|]. split; [discriminate|].
      split; [split; [intros [st' [=]]|intros (_ & [=] & _)]|].
      intros e' st' [= _ <-]. reflexivity.
  - rewrite (deprecate_without_id satisfies st p callee message predicate
               properties rest Hsite Hid).
    split; [reflexivity|]. split; [discriminate|]. split; [discriminate|].
    split; [split; [intros [st' [=]]|intros ([=] & _)]|].
    intros e' st' [= _ <-]. reflexivity.
Qed.

Lemma deprecate_validation_witness :
  let site :=
    ExpressionStatement
      (CallExpression (Identifier "deprecate")
         [ StringLiteral "Foo is bad"; Identifier "isBad";
           ObjectExpression [ (Identifier "id", StringLiteral EmptyString);
                              (Identifier "until", StringLiteral ">=2.0.0") ] ]) in
  let st := with_body [ (3, site) ] (Sample.state HelpersOff) in
  _deprecate Sample.not_expired 3 st = (Thrown (ReferenceError (requires_field "id")), st).
Proof.
  intros site st.
  destruct (deprecate_validation Sample.not_expired st 3 (Identifier "deprecate")
              (StringLiteral "Foo is bad") (Identifier "isBad")
              [ (Identifier "id", StringLiteral EmptyString);
                (Identifier "until", StringLiteral ">=2.0.0") ] [] eq_refl)
    as (Hid & _).
  apply Hid. reflexivity.
Defined.

Lemma meta_assign_sets (key : string) (meta : Meta) (v : expr) :
  key = "id" \/ key = "until" \/ key = "url" ->
  meta_field key (meta_assign meta (Identifier key, v)) = node_value v.
Proof. intros [->|[->| ->]]; reflexivity. Qed.

Lemma fold_meta_field_lacks (key : string) (properties : list (expr * expr)) (meta : Meta) :
  key = "id" \/ key = "until" \/ key = "url" ->
  lacks_field key properties = true ->
  meta_field key (fold_left meta_assign properties meta) = meta_field key meta.
Proof.
  intros Hkey Hlacks.
  destruct (fold_meta_lacks key properties meta Hlacks) as (Hid & Huntil & Hurl).
  destruct Hkey as [->|[->| ->]]; cbn; auto.
Qed.

Lemma read_meta_last (key : string) (before after : list (expr * expr)) (v : expr) :
  key = "id" \/ key = "until" \/ key = "url" ->
  lacks_field key after = true ->
  meta_field key (read_meta (before ++ (Identifier key, v) :: after)) = node_value v.
Proof.
  intros Hkey Hlacks. unfold read_meta. rewrite fold_left_app. cbn [fold_left].
  rewrite (fold_meta_field_lacks key after _ Hkey Hlacks).
  apply meta_assign_sets. exact Hkey.
Qed.

(** X15. Of several properties with the same recognised key the last one
    counts, and what is kept is the [value] of its value node: the string,
    number or boolean of a literal, and [undefined] for any other
    expression. *)
Theorem read_meta_last_wins (key : string) (before after : list (expr * expr)) (v : expr) :
  key = "id" \/ key = "until" \/ key = "url" ->
  lacks_field key after = true ->
  meta_field key (read_meta (before ++ (Identifier key, v) :: after)) = node_value v
  /\ (isLiteral v = false ->
      meta_field key (read_meta (before ++ (Identifier key, v) :: after)) = VUndefined).
Proof.
  intros Hkey Hlacks. rewrite (read_meta_last key before after v Hkey Hlacks).
  split; [reflexivity|]. destruct v; cbn; try discriminate; reflexivity.
Qed.

Lemma read_meta_last_wins_witness :
  meta_id (read_meta [ (Identifier "id", StringLiteral "old");
                       (Identifier "url", StringLiteral "http://x");
                       (Identifier "id", StringLiteral "new");
                       (Identifier "until", StringLiteral "3.0.0") ])
  = VString "new".
Proof.
  apply (read_meta_last_wins "id"
           [ (Identifier "id", StringLiteral "old");
             (Identifier "url", StringLiteral "http://x") ]
           [ (Identifier "until", StringLiteral "3.0.0") ]
           (StringLiteral "new")).
  - left. reflexivity.
  - reflexivity.
Defined.

(** X16. A required field whose last value is not a literal with a truthy
    value, such as an identifier or a member access, is treated as missing:
    [_deprecate] throws the error for [id] and leaves the state as it was,
    although the metadata object has an [id] property. *)
Theorem deprecate_rejects_unreadable_id (satisfies : string -> string -> Outcome bool)
    (st : State) (p : path) (callee message predicate : expr)
    (before after : list (expr * expr)) (v : expr) (rest : list expr) :
  Tree.node p (body st)
  = Some (ExpressionStatement
            (CallExpression callee
               (message :: predicate
                  :: ObjectExpression (before ++ (Identifier "id", v) :: after) :: rest))) ->
  lacks_field "id" after = true ->
  truthy (node_value v) = false ->
  _deprecate satisfies p st = (Thrown (ReferenceError (requires_field "id")), st).
Proof.
  intros Hsite Hlacks Hfalsy. eapply deprecate_without_id; [exact Hsite|].
  pose proof (read_meta_last "id" before after v (or_introl eq_refl) Hlacks) as Hlast.
  cbn [meta_field String.eqb Ascii.eqb Bool.eqb] in Hlast. rewrite Hlast. exact Hfalsy.
Qed.

Lemma deprecate_rejects_unreadable_id_witness :
  let site :=
    ExpressionStatement
      (CallExpression (Identifier "deprecate")
         [ StringLiteral "Foo is bad"; Identifier "isBad";
           ObjectExpression [ (Identifier "id", Identifier "FOO_ID");
                              (Identifier "until", StringLiteral ">=2.0.0") ] ]) in
  let st := with_body [ (3, site) ] (Sample.state HelpersOff) in
  _deprecate Sample.not_expired 3 st = (Thrown (ReferenceError (requires_field "id")), st).
Proof.
  intros site st.
  apply (deprecate_rejects_unreadable_id Sample.not_expired st 3 (Identifier "deprecate")
           (StringLiteral "Foo is bad") (Identifier "isBad")
           [] [ (Identifier "until", StringLiteral ">=2.0.0") ] (Identifier "FOO_ID") []);
    reflexivity.
Defined.

Lemma fold_meta_recognised (properties : list (expr * expr)) (meta : Meta) :
  fold_left meta_assign (List.filter recognised properties) meta
  = fold_left meta_assign properties meta.
Proof.
  revert meta. induction properties as [|prop properties IH]; intros meta; [reflexivity|].
  cbn [List.filter]. destruct (recognised prop) eqn:Hrec.
  - cbn [fold_left]. apply IH.
  - cbn [fold_left]. rewrite IH. f_equal.
    unfold recognised in Hrec. unfold meta_assign.
    destruct (node_name (fst prop)) as [key|]; [|reflexivity].
    apply orb_false_iff in Hrec as [Hrec Huntil].
    apply orb_false_iff in Hrec as [Hurl Hid].
    rewrite Hurl, Hid, Huntil. reflexivity.
Qed.

(** X17. Properties that [_deprecate] does not recognise make no difference
    to what it reads: dropping every property whose key is not the
    identifier [url], [id] or [until] (other names, and keys written as
    string literals) leaves the metadata record the same. *)
Theorem read_meta_ignores_unrecognised (properties : list (expr * expr)) :
  read_meta (List.filter recognised properties) = read_meta properties.
Proof. apply fold_meta_recognised. Qed.

(** X18. A deprecate call with fewer than three arguments, or whose third
    argument is not an object literal, throws a TypeError before anything is
    removed or registered. *)
Theorem deprecate_malformed_call (satisfies : string -> string -> Outcome bool)
    (st : State) (p : path) (callee : expr) (args : list expr) :
  Tree.node p (body st) = Some (ExpressionStatement (CallExpression callee args)) ->
  (forall properties, args !! 2 <> Some (ObjectExpression properties)) ->
  exists message, _deprecate satisfies p st = (Thrown (TypeError message), st).
Proof.
  intros Hsite Hshape. unfold _deprecate, bind at 1.
  rewrite (call_arguments_node _ _ _ _ Hsite).
  destruct args as [|a0 [|a1 [|a2 args]]]; try (eexists; reflexivity).
  destruct a2; try (eexists; reflexivity).
  destruct (Hshape properties). reflexivity.
Qed.

Lemma deprecate_malformed_call_witness :
  let site :=
    ExpressionStatement
      (CallExpression (Identifier "deprecate") [ StringLiteral "Foo is bad"; Identifier "isBad" ]) in
  let st := with_body [ (3, site) ] (Sample.state HelpersOff) in
  exists message, _deprecate Sample.expired 3 st = (Thrown (TypeError message), st).
Proof.
  intros site st.
  apply (deprecate_malformed_call Sample.expired st 3 (Identifier "deprecate")
           [ StringLiteral "Foo is bad"; Identifier "isBad" ]).
  - reflexivity.
  - intros properties. discriminate.
Defined.

(** ** Helper targets *)

Lemma helper_choice (options : Options) (b : MacroBuilder) (external console : string)
    (args : list expr) :
  helpers b = helpers (constructor options) ->
  externalizeHelpers b = externalizeHelpers (constructor options) ->
  (if externalizeHelpers b then
     match has_namespace (helpers_global (helpers b)) with
     | Some ns => _createGlobalExternalHelper external args ns
     | None => _createExternalHelper external args
     end
   else _createConsoleAPI console args)
  = CallExpression (helper_callee (opt_externalizeHelpers options) external console) args.
Proof.
  intros -> ->. cbn.
  destruct (opt_externalizeHelpers options) as [| |[[|ch ns]|] module]; reflexivity.
Qed.

(** X19. For a builder constructed from the options, the three builders
    pick the callee of the terminal call in the same way: a member of
    [console] when [externalizeHelpers] is absent or false ([console.assert]
    for assert, [console.warn] for warn and for deprecate); the member
    [assert], [warn] or [deprecate] of the global namespace when that is a
    non-empty string; and the bare identifier [assert], [warn] or
    [deprecate] when helpers are externalized without a usable namespace
    ([externalizeHelpers: true], no [global] entry, or an empty one). *)
Theorem helper_target_selection (satisfies : string -> string -> Outcome bool)
    (options : Options) (st : State) (p : path) (callee : expr) (args : list expr) :
  helpers (this st) = helpers (constructor options) ->
  externalizeHelpers (this st) = externalizeHelpers (constructor options) ->
  Tree.node p (body st) = Some (ExpressionStatement (CallExpression callee args)) ->
  let target := helper_callee (opt_externalizeHelpers options) in
  _assert p st
  = push_expression
      (p, _buildLogicalExpressions (_getIdentifiers args)
            (CallExpression (target "assert" "assert") args)) st
  /\ _warn p st
     = push_expression
         (p, _buildLogicalExpressions [] (CallExpression (target "warn" "warn") args)) st
  /\ (forall message predicate properties rest,
        args = message :: predicate :: ObjectExpression properties :: rest ->
        truthy (meta_id (read_meta properties)) = true ->
        truthy (meta_until (read_meta properties)) = true ->
        satisfies (packageVersion (this st)) (to_string (meta_until (read_meta properties)))
        = Returned false ->
        _deprecate satisfies p st
        = push_expression
            (p, _buildLogicalExpressions [predicate]
                  (CallExpression (target "deprecate" "warn")
                     [_generateDeprecationMessage message (read_meta properties)])) st).
Proof.
  intros Hhelpers Hext Hsite target. subst target. split; [|split].
  - unfold _assert, bind at 1. rewrite (call_arguments_node _ _ _ _ Hsite).
    unfold bind at 1, get at 1.
    rewrite (helper_choice options _ "assert" "assert" args Hhelpers Hext). reflexivity.
  - unfold _warn, bind at 1. rewrite (call_arguments_node _ _ _ _ Hsite).
    unfold bind at 1, get at 1.
    rewrite (helper_choice options _ "warn" "warn" args Hhelpers Hext). reflexivity.
  - intros message predicate properties rest -> Hid Huntil Hsat.
    rewrite (deprecate_registered satisfies st p callee message predicate properties rest
               Hsite Hid Huntil Hsat).
    cbn zeta.
    rewrite (helper_choice options _ "deprecate" "warn" _ Hhelpers Hext). reflexivity.
Qed.

Lemma helper_target_selection_witness :
  _assert 1 (Sample.state HelpersTrue)
  = push_expression
      (1, _buildLogicalExpressions [Identifier "x"]
            (CallExpression (Identifier "assert") [Identifier "x"; StringLiteral "message"]))
      (Sample.state HelpersTrue)
  /\ _deprecate Sample.not_expired 3 (Sample.state (HelpersObject (Some "Ember") VUndefined))
     = push_expression
         (3, _buildLogicalExpressions [Identifier "isBad"]
               (CallExpression (MemberExpression (Identifier "Ember") (Identifier "deprecate"))
                  [_generateDeprecationMessage (StringLiteral "Foo is bad")
                     (read_meta Sample.foo_meta)]))
         (Sample.state (HelpersObject (Some "Ember") VUndefined)).
Proof.
  split.
  - destruct (helper_target_selection Sample.not_expired (Sample.options HelpersTrue)
                (Sample.state HelpersTrue) 1 (Identifier "assert")
                [Identifier "x"; StringLiteral "message"] eq_refl eq_refl eq_refl)
      as (Hassert & _).
    exact Hassert.
  - destruct (helper_target_selection Sample.not_expired
                (Sample.options (HelpersObject (Some "Ember") VUndefined))
                (Sample.state (HelpersObject (Some "Ember") VUndefined)) 3
                (Identifier "deprecate")
                [StringLiteral "Foo is bad"; Identifier "isBad"; ObjectExpression Sample.foo_meta]
                eq_refl eq_refl eq_refl)
      as (_ & _ & Hdeprecate).
    apply (Hdeprecate _ _ _ [] eq_refl); reflexivity.
Defined.

(** ** The whole finalization step *)

Lemma node_le_max (k : path) (b : Program) :
  is_Some (Tree.node k b) -> k <= list_max (map fst b).
Proof.
  induction b as [|[k0 s0] b IH]; intros [s Hs]; [discriminate|].
  cbn in Hs.
  change (list_max (map fst ((k0, s0) :: b)))
    with (Nat.max k0 (list_max (map fst b))).
  destruct (Nat.eqb k0 k) eqn:E.
  - apply Nat.eqb_eq in E. lia.
  - specialize (IH (ex_intro _ s Hs)). lia.
Qed.

Lemma present_below_fresh (k : path) (b : Program) :
  is_Some (Tree.node k b) -> k < Tree.fresh b.
Proof. intros H. apply node_le_max in H. unfold Tree.fresh. lia. Qed.

Lemma node_number_below (q k : path) (nodes : list stmt) :
  q < k -> Tree.node q (Tree.number k nodes) = None.
Proof.
  revert k. induction nodes as [|s nodes IH]; intros k Hlt; [reflexivity|].
  cbn. destruct (Nat.eqb k q) eqn:E; [apply Nat.eqb_eq in E; lia|].
  apply IH. lia.
Qed.

Lemma node_app_None (q : path) (l1 l2 : Program) :
  Tree.node q l1 = None -> Tree.node q (l1 ++ l2)%list = Tree.node q l2.
Proof.
  induction l1 as [|[k s] l1 IH]; intros Hnone; [reflexivity|].
  cbn in *. destruct (Nat.eqb k q); [discriminate|]. apply IH. exact Hnone.
Qed.

Lemma node_splice_other (q p : path) (nodes b : Program) :
  q <> p -> Tree.node q nodes = None ->
  Tree.node q (Tree.splice p nodes b) = Tree.node q b.
Proof.
  intros Hne Hnone. induction b as [|[k s] b IH]; [reflexivity|].
  change (Tree.splice p nodes ((k, s) :: b))
    with ((if Nat.eqb k p then nodes else [(k, s)]) ++ Tree.splice p nodes b)%list.
  destruct (Nat.eqb k p) eqn:E.
  - apply Nat.eqb_eq in E. subst k. rewrite (node_app_None _ _ _ Hnone), IH.
    cbn. destruct (Nat.eqb p q) eqn:E'; [apply Nat.eqb_eq in E'; congruence|reflexivity].
  - cbn. rewrite IH. reflexivity.
Qed.

Lemma keys_expand_body (g : string) (es : list (path * Closure)) (b : Program) :
  map fst (expand_body g es b) = map fst b.
Proof.
  revert b. induction es as [|e es IH]; intros b; [reflexivity|].
  cbn. unfold expand_body in IH. rewrite IH. apply keys_set_node.
Qed.

Lemma expand_body_cons_other (g : string) (es : list (path * Closure))
    (k : path) (s : stmt) (b : Program) :
  k ∉ map fst es ->
  expand_body g es ((k, s) :: b) = (k, s) :: expand_body g es b.
Proof.
  revert b s. induction es as [|e es IH]; intros b s Hk; [reflexivity|].
  cbn in Hk. apply not_elem_of_cons in Hk as [Hne Hk].
  cbn. destruct (Nat.eqb k (fst e)) eqn:E; [apply Nat.eqb_eq in E; congruence|].
  apply (IH _ _ Hk).
Qed.

Lemma envFlags_configuration (b b' : MacroBuilder) :
  configuration b' = configuration b ->
  envFlags b' = envFlags b
  /\ localBindings b' = localBindings b
  /\ externalizeHelpers b' = externalizeHelpers b
  /\ helpers b' = helpers b.
Proof.
  intros H.
  pose proof (f_equal envFlags H) as H1. pose proof (f_equal localBindings H) as H2.
  pose proof (f_equal externalizeHelpers H) as H3. pose proof (f_equal helpers H) as H4.
  auto.
Qed.

Lemma generateFlagConstants_throws (flagTable : gmap string Z) (source : string)
    (specifiers : list ImportSpecifier) :
  Exists (fun s => flagTable !! spec_imported s = None) specifiers ->
  exists e, generateFlagConstants specifiers flagTable source = Thrown e.
Proof.
  induction specifiers as [|s0 specifiers IH]; intros Hex; [inversion Hex|].
  cbn. unfold property. destruct (flagTable !! spec_imported s0) as [flag|] eqn:Hflag.
  - apply Exists_cons in Hex as [Hex|Hex]; [congruence|].
    destruct (IH Hex) as [e He]. rewrite He. eauto.
  - destruct (existsb (String.eqb (spec_imported s0)) object_prototype_members); eauto.
Qed.

(** X20. In the reuse path a flag of the env-flags import that is not an own
    key of the environment table is reported only after the call sites have
    been rewritten: [injectFlags] throws what [generateFlagConstants] throws
    for the import, and the state at the throw has every registered
    expansion applied with the guard [DEBUG], the import declaration still in
    place, and no import cleanup done.  When no imported name is a member
    inherited from [Object.prototype] the exception is the unknown-flag
    error for one of the imported names. *)
Theorem injectFlags_unknown_env_flag (scope : Scope) (st : State) (p : path)
    (specifiers : list ImportSpecifier) (source : string) :
  getBinding scope "DEBUG" = Some (ImportBinding p "@ember/env-flags") ->
  Tree.node p (body st) = Some (ImportDeclaration specifiers source) ->
  Exists (fun s => envFlags (this st) !! spec_imported s = None) specifiers ->
  p ∉ map fst (expressions (this st)) ->
  (forall e, e ∈ expressions (this st) -> is_Some (Tree.node (fst e) (body st))) ->
  exists e st',
    injectFlags scope st = (Thrown e, st')
    /\ generateFlagConstants specifiers (envFlags (this st)) source = Thrown e
    /\ body st' = expand_body "DEBUG" (expressions (this st)) (body st)
    /\ Tree.node p (body st') = Some (ImportDeclaration specifiers source)
    /\ (Forall (fun s => spec_imported s ∉ object_prototype_members) specifiers ->
        exists name,
          name ∈ map spec_imported specifiers
          /\ e = Error (unsupported_flag name source)).
Proof.
  intros Hbinding Hnode Hex Hp Hsites.
  destruct (generateFlagConstants_throws (envFlags (this st)) source specifiers Hex)
    as (e & Hgen).
  destruct (expand_full "DEBUG" st Hsites) as (st1 & Hrun & Hbody & _ & Hconf).
  apply envFlags_configuration in Hconf as (Henv & _).
  assert (Hnode1 : Tree.node p (body st1) = Some (ImportDeclaration specifiers source)).
  { rewrite Hbody, node_expand_body_other by exact Hp. exact Hnode. }
  exists e, st1. split; [|split; [|split; [|split]]].
  - unfold injectFlags. change (getBinding scope DEBUG) with (getBinding scope "DEBUG").
    rewrite Hbinding. cbn [_hasDebugModule String.eqb Ascii.eqb Bool.eqb negb].
    cbn [binding_parentPath]. unfold bind at 1. unfold bind at 1.
    change (_expand DEBUG st) with (_expand "DEBUG" st). rewrite Hrun.
    erewrite inlineEnvFlags_throws; [reflexivity|exact Hnode1|].
    rewrite Henv. exact Hgen.
  - exact Hgen.
  - exact Hbody.
  - exact Hnode1.
  - intros Hplain.
    destruct (generateFlagConstants_unknown (envFlags (this st)) source specifiers
                Hplain Hex) as (s & Hin & _ & Hgen').
    rewrite Hgen in Hgen'. injection Hgen' as ->.
    exists (spec_imported s). split; [apply list_elem_of_fmap; eauto|reflexivity].
Qed.

Lemma injectFlags_unknown_env_flag_witness :
  exists st',
    injectFlags Sample.scope_with_debug Sample.registered
    = (Thrown (Error "Imported TESTING from @ember/env-flags which is not a supported flag."),
       st')
    /\ Tree.node 2 (body st')
       = Some (ExpressionStatement
                 (ParenthesizedExpression
                    (LogicalExpression "&&" (Identifier "DEBUG")
                       (_createConsoleAPI "warn" [StringLiteral "message"])))).
Proof.
  destruct (injectFlags_unknown_env_flag Sample.scope_with_debug Sample.registered 4
              [ {| spec_imported := "DEBUG"; spec_local := "DEBUG" |};
                {| spec_imported := "TESTING"; spec_local := "TESTING" |} ]
              "@ember/env-flags")
    as (e & st' & Hrun & Hgen & Hbody & _).
  - reflexivity.
  - reflexivity.
  - right. left. vm_compute. reflexivity.
  - apply (bool_decide_unpack _). vm_compute. reflexivity.
  - intros e0 He. cbn in He.
    repeat (apply elem_of_cons in He as [->|He]); cbn; eauto. inversion He.
  - exists st'. split.
    + rewrite Hrun. f_equal. vm_compute in Hgen. injection Hgen as <-. reflexivity.
    + rewrite Hbody. reflexivity.
Defined.

Lemma cleanImports_remove_run (scope : Scope) (st : State)
    (first : string) (rest : list string) (b : Binding) :
  localBindings (this st) = first :: rest ->
  getBinding scope first = Some b ->
  is_Some (Tree.node (binding_parentPath b) (body st)) ->
  externalizeHelpers (this st) && truthy (helpers_module (helpers (this st))) = false ->
  _cleanImports scope st
  = (Returned tt, with_body (Tree.drop_node (binding_parentPath b) (body st)) st).
Proof.
  intros Hlocal Hbinding Hnode Hoff.
  unfold _cleanImports, bind at 1, get at 1. rewrite Hlocal, Hbinding, Hoff.
  apply remove_node. exact Hnode.
Qed.

Lemma node_cons_other (q k : path) (s : stmt) (b : Program) :
  q <> k -> Tree.node q ((k, s) :: b) = Tree.node q b.
Proof.
  intros Hne. cbn. destruct (Nat.eqb k q) eqn:E; [apply Nat.eqb_eq in E; congruence|].
  reflexivity.
Qed.

Lemma drop_node_cons_other (q k : path) (s : stmt) (b : Program) :
  q <> k -> Tree.drop_node q ((k, s) :: b) = (k, s) :: Tree.drop_node q b.
Proof.
  intros Hne. unfold Tree.drop_node. cbn.
  destruct (Nat.eqb k q) eqn:E; [apply Nat.eqb_eq in E; congruence|]. reflexivity.
Qed.

Lemma node_splice_same (p : path) (nodes b : Program) :
  Tree.node p nodes = None -> Tree.node p (Tree.splice p nodes b) = None.
Proof.
  intros Hnone. induction b as [|[k s] b IH]; [reflexivity|].
  change (Tree.splice p nodes ((k, s) :: b))
    with ((if Nat.eqb k p then nodes else [(k, s)]) ++ Tree.splice p nodes b)%list.
  destruct (Nat.eqb k p) eqn:E.
  - rewrite (node_app_None _ _ _ Hnone). exact IH.
  - cbn. rewrite E. exact IH.
Qed.

(** X21. The synthesize path, start to end, for a module whose helper import
    is to be removed: with at least one expansion registered, [injectFlags]
    returns with the [const] declaration of the generated guard as the first
    statement, every registered call site expanded with that guard, and the
    declaration that binds the first collected local name removed. *)
Theorem injectFlags_synthesize (scope : Scope) (st : State) (flag : Z)
    (first : string) (rest : list string) (b : Binding) :
  _hasDebugModule (getBinding scope "DEBUG") = false ->
  expressions (this st) <> [] ->
  (forall e, e ∈ expressions (this st) -> is_Some (Tree.node (fst e) (body st))) ->
  envFlags (this st) !! "DEBUG" = Some flag ->
  localBindings (this st) = first :: rest ->
  getBinding scope first = Some b ->
  is_Some (Tree.node (binding_parentPath b) (body st)) ->
  externalizeHelpers (this st) && truthy (helpers_module (helpers (this st))) = false ->
  let name := generateUidIdentifier scope "DEBUG" in
  exists st',
    injectFlags scope st = (Returned tt, st')
    /\ body st'
       = (Tree.fresh (body st),
          VariableDeclaration "const" (Identifier name) (NumericLiteral flag))
         :: Tree.drop_node (binding_parentPath b)
              (expand_body name (expressions (this st)) (body st)).
Proof.
  intros Hsynth Hsome Hsites Hflag Hlocal Hbinding Hq Hoff name.
  set (decl := VariableDeclaration "const" (Identifier name) (NumericLiteral flag)).
  set (st0 := with_body ((Tree.fresh (body st), decl) :: body st) st).
  assert (Hfresh : Tree.fresh (body st) ∉ map fst (expressions (this st))).
  { intros Hin. apply list_elem_of_fmap in Hin as (e & He & Hin).
    pose proof (present_below_fresh _ _ (Hsites e Hin)). lia. }
  destruct (expand_full name st0) as (st1 & Hrun & Hbody & _ & Hconf).
  { intros e He. pose proof (present_below_fresh _ _ (Hsites e He)).
    cbn [st0 body with_body]. rewrite node_cons_other by lia. apply (Hsites e He). }
  cbn [st0 this body with_body expressions] in Hbody, Hconf.
  rewrite (expand_body_cons_other _ _ _ _ _ Hfresh) in Hbody.
  apply envFlags_configuration in Hconf as (_ & Hlocal1 & Hext1 & Hhelpers1).
  pose proof (present_below_fresh _ _ Hq) as Hbelow.
  exists (with_body (Tree.drop_node (binding_parentPath b) (body st1)) st1). split.
  - unfold injectFlags. change (getBinding scope DEBUG) with (getBinding scope "DEBUG").
    rewrite Hsynth. cbn [negb]. unfold bind at 1. unfold bind at 1, get at 1.
    destruct (expressions (this st)) as [|e es] eqn:Hes; [congruence|].
    cbn [length Nat.ltb Nat.leb]. unfold bind at 1, _injectDebug, bind at 1, get at 1.
    unfold DEBUG. rewrite Hflag. unfold unshift, bind at 1, get at 1, put.
    fold name. fold decl. fold st0. rewrite Hrun.
    apply cleanImports_remove_run with (first := first) (rest := rest).
    + rewrite Hlocal1. exact Hlocal.
    + exact Hbinding.
    + rewrite Hbody. rewrite node_cons_other by lia.
      apply node_expand_body_is_Some. exact Hq.
    + rewrite Hext1, Hhelpers1. exact Hoff.
  - cbn [body with_body]. rewrite Hbody.
    apply drop_node_cons_other. lia.
Qed.

Lemma injectFlags_synthesize_witness :
  exists st',
    (collectSpecifiers Aliased.tools ;; _assert 1 ;; injectFlags Aliased.scope)
      (Aliased.state HelpersOff) = (Returned tt, st')
    /\ take 2 (body st')
       = [ (4, VariableDeclaration "const" (Identifier "_DEBUG") (NumericLiteral 1));
           (1, ExpressionStatement
                 (ParenthesizedExpression
                    (LogicalExpression "&&"
                       (LogicalExpression "&&" (Identifier "_DEBUG") (Identifier "ok"))
                       (_createConsoleAPI "assert"
                          [Identifier "ok"; StringLiteral "message"])))) ].
Proof.
  set (st := snd ((collectSpecifiers Aliased.tools ;; _assert 1) (Aliased.state HelpersOff))).
  destruct (injectFlags_synthesize Aliased.scope st 1%Z "check" ["warn"]
              (ImportBinding 0 "debug-tools"))
    as (st' & Hrun & Hbody).
  - reflexivity.
  - discriminate.
  - intros e He. cbn in He. apply list_elem_of_singleton in He as ->. cbn. eauto.
  - reflexivity.
  - reflexivity.
  - reflexivity.
  - cbn. eauto.
  - reflexivity.
  - exists st'. split.
    + rewrite <- Hrun. reflexivity.
    + rewrite Hbody. reflexivity.
Defined.

(** X22. The reuse path, start to end, for a module whose helper import is
    to be removed: when every flag of the env-flags import is in the
    environment table, [injectFlags] returns with every registered call site
    expanded with the guard [DEBUG], the env-flags import replaced by its
    constant declarations, and the declaration that binds the first
    collected local name removed. *)
Theorem injectFlags_reuse (scope : Scope) (st : State) (p : path)
    (specifiers : list ImportSpecifier) (source : string) (decls : list stmt)
    (first : string) (rest : list string) (b : Binding) :
  getBinding scope "DEBUG" = Some (ImportBinding p "@ember/env-flags") ->
  Tree.node p (body st) = Some (ImportDeclaration specifiers source) ->
  generateFlagConstants specifiers (envFlags (this st)) source = Returned decls ->
  p ∉ map fst (expressions (this st)) ->
  (forall e, e ∈ expressions (this st) -> is_Some (Tree.node (fst e) (body st))) ->
  localBindings (this st) = first :: rest ->
  getBinding scope first = Some b ->
  binding_parentPath b <> p ->
  is_Some (Tree.node (binding_parentPath b) (body st)) ->
  externalizeHelpers (this st) && truthy (helpers_module (helpers (this st))) = false ->
  exists st',
    injectFlags scope st = (Returned tt, st')
    /\ body st'
       = Tree.drop_node (binding_parentPath b)
           (Tree.splice p (Tree.number (Tree.fresh (body st)) decls)
              (expand_body "DEBUG" (expressions (this st)) (body st)))
    /\ Tree.node p (body st') = None
    /\ Tree.node (binding_parentPath b) (body st') = None.
Proof.
  intros Hbinding Hnode Hgen Hp Hsites Hlocal Hfirst Hne Hq Hoff.
  destruct (expand_full "DEBUG" st Hsites) as (st1 & Hrun & Hbody & _ & Hconf).
  apply envFlags_configuration in Hconf as (Henv & Hlocal1 & Hext1 & Hhelpers1).
  assert (Hnode1 : Tree.node p (body st1) = Some (ImportDeclaration specifiers source)).
  { rewrite Hbody, node_expand_body_other by exact Hp. exact Hnode. }
  assert (Hfresh : Tree.fresh (body st1) = Tree.fresh (body st)).
  { unfold Tree.fresh. rewrite Hbody, keys_expand_body. reflexivity. }
  set (nodes := Tree.number (Tree.fresh (body st)) decls).
  set (st2 := with_body (Tree.splice p nodes (body st1)) st1).
  assert (Hinline : inlineEnvFlags p st1 = (Returned tt, st2)).
  { unfold inlineEnvFlags, bind at 1. rewrite (import_of_node _ _ _ _ Hnode1).
    unfold bind at 1, get at 1. unfold bind at 1, lift at 1. rewrite Henv, Hgen.
    unfold replaceWithMultiple, bind, get, put. rewrite Hnode1, Hfresh. reflexivity. }
  assert (Hnew : forall k, is_Some (Tree.node k (body st)) -> Tree.node k nodes = None).
  { intros k Hk. apply node_number_below. apply present_below_fresh. exact Hk. }
  exists (with_body (Tree.drop_node (binding_parentPath b) (body st2)) st2).
  split; [|split; [|split]].
  - unfold injectFlags. change (getBinding scope DEBUG) with (getBinding scope "DEBUG").
    rewrite Hbinding. cbn [_hasDebugModule String.eqb Ascii.eqb Bool.eqb negb].
    cbn [binding_parentPath]. unfold bind at 1. unfold bind at 1.
    change (_expand DEBUG st) with (_expand "DEBUG" st). rewrite Hrun, Hinline.
    apply cleanImports_remove_run with (first := first) (rest := rest).
    + cbn. rewrite Hlocal1. exact Hlocal.
    + exact Hfirst.
    + cbn [st2 body with_body]. rewrite node_splice_other; [|exact Hne|apply Hnew; exact Hq].
      rewrite Hbody. apply node_expand_body_is_Some. exact Hq.
    + cbn. rewrite Hext1, Hhelpers1. exact Hoff.
  - cbn [st2 body with_body]. rewrite Hbody. reflexivity.
  - cbn [st2 body with_body]. rewrite node_drop_node_ne by auto.
    apply node_splice_same. apply Hnew. rewrite Hnode. eauto.
  - cbn [st2 body with_body]. apply node_drop_node_eq.
Qed.

Lemma injectFlags_reuse_witness :
  exists st',
    (collectSpecifiers Sample.tools ;; _warn 2 ;; injectFlags Sample.scope_with_debug)
      Sample.registered_all_flags = (Returned tt, st')
    /\ map fst (body st') = [1; 2; 3; 5; 6]
    /\ Tree.node 6 (body st')
       = Some (VariableDeclaration "const" (Identifier "TESTING") (NumericLiteral 0)).
Proof.
  set (st := snd ((collectSpecifiers Sample.tools ;; _warn 2) Sample.registered_all_flags)).
  destruct (injectFlags_reuse Sample.scope_with_debug st 4
              [ {| spec_imported := "DEBUG"; spec_local := "DEBUG" |};
                {| spec_imported := "TESTING"; spec_local := "TESTING" |} ]
              "@ember/env-flags"
              [ VariableDeclaration "const" (Identifier "DEBUG") (NumericLiteral 1);
                VariableDeclaration "const" (Identifier "TESTING") (NumericLiteral 0) ]
              "assert" ["warn"; "deprecate"] (ImportBinding 0 "debug-tools"))
    as (st' & Hrun & Hbody & _).
  - reflexivity.
  - reflexivity.
  - vm_compute. reflexivity.
  - apply (bool_decide_unpack _). vm_compute. reflexivity.
  - intros e He. cbn in He.
    repeat (apply elem_of_cons in He as [->|He]); cbn; eauto. inversion He.
  - reflexivity.
  - reflexivity.
  - discriminate.
  - cbn. eauto.
  - reflexivity.
  - exists st'. split.
    + rewrite <- Hrun. reflexivity.
    + rewrite Hbody. split; reflexivity.
Defined.

(** ** A collected helper that is no macro *)

(** X23. A call of a collected local name whose imported name is none of
    [assert], [warn] and [deprecate] is not skipped: [buildExpression] looks
    up the member [_<imported name>] of the builder and, when there is no
    such member, throws a TypeError, leaving the state as it was. *)
Theorem buildExpression_unknown_helper (satisfies : string -> string -> Outcome bool)
    (other_member : string -> option (path -> M unit))
    (st : State) (p : path) (name imported : string) (args : list expr) (i : nat) :
  Tree.node p (body st)
  = Some (ExpressionStatement (CallExpression (Identifier name) args)) ->
  indexOf (localBindings (this st)) name = Some i ->
  importedBindings (this st) !! i = Some imported ->
  member satisfies other_member ("_" +:+ imported) = None ->
  exists message,
    buildExpression satisfies other_member p st = (Thrown (TypeError message), st).
Proof.
  intros Hnode Hi Himported Hnone.
  unfold buildExpression, bind at 1, node_of, bind at 1, get at 1.
  rewrite Hnode. unfold ret at 1, bind at 1, get at 1.
  cbn [node_name]. rewrite Hi, Himported, Hnone. eexists. reflexivity.
Qed.

Lemma buildExpression_unknown_helper_witness :
  exists message,
    buildExpression Sample.expired Aliased.no_member 1 Aliased.unknown_helper
    = (Thrown (TypeError message), Aliased.unknown_helper).
Proof.
  apply (buildExpression_unknown_helper Sample.expired Aliased.no_member
           Aliased.unknown_helper 1 "debug" "debug" [StringLiteral "message"] 0);
    reflexivity.
Defined.
